(** * A shallow embedding of the CTS test harness

    The development follows the TypeScript/JavaScript sources:

    - [src/common/framework/test_group.ts]
        ([TestGroup], [TestBuilder], [RunCaseSpecific]),
    - [out/common/internal/logging/log_message.js] ([LogMessageWithStack]),
    - [check_contents.js] ([checkElementsEqual], [checkElementsBetween],
        [checkElementsEqualEither], [checkElementsPassPredicate],
        [generatePrettyTable], [intToPaddedHex]),
    - the module of shader types ([generateTypes], [supportedScalarTypes],
        [supportsAtomics]).

    JavaScript exceptions are completion records ([Normal] / [Throw]), mutable
    objects are threaded as explicit state, and helpers that live in other
    modules of the repository are either parameters of a [Section] or small
    definitions introduced by a comment starting "Modelled from the spec:". *)

From Stdlib Require Import ZArith String Ascii List Bool Lia.
From Stdlib Require Import DecimalString HexadecimalString.
From stdpp Require Import base gmap strings list.
Import ListNotations.
Open Scope string_scope.

(** A lemma of a section is generalised over the section variables of its
    statement only. *)
#[local] Set Default Proof Using "Type".

(** ** JavaScript values shared by all modules *)

Module JS.

(** The classes of thrown objects that the code distinguishes with
    [instanceof]. *)
Inductive ErrorClass :=
| SkipTestCase
| UnexpectedPassError
| PlainError.

(** An [Error] object: the fields the code reads or assigns. [stack] is
    [None] when the engine gives no stack ([undefined]). *)
Record Error := mkError {
  cls : ErrorClass;
  message : string;
  stack : option string
}.

Definition isSkipTestCase (ex : Error) : bool :=
  match cls ex with SkipTestCase => true | _ => false end.

Definition isUnexpectedPassError (ex : Error) : bool :=
  match cls ex with UnexpectedPassError => true | _ => false end.

(** [ex.message = m] and [ex.stack = s] on a thrown object. *)
Definition setMessage (m : string) (ex : Error) : Error :=
  {| cls := cls ex; message := m; stack := stack ex |}.

Definition setStack (s : option string) (ex : Error) : Error :=
  {| cls := cls ex; message := message ex; stack := s |}.

(** A completion: the call returned a value or threw. *)
Inductive Completion (A : Type) :=
| Normal (a : A)
| Throw (ex : Error).
Arguments Normal {A} a.
Arguments Throw {A} ex.

(** [Expectation = 'pass' | 'skip' | 'fail'] (logging/result). *)
Inductive Expectation := ExpPass | ExpSkip | ExpFail.

(** [Ordering] (query/compare). *)
Inductive Ordering := Unordered | StrictSuperset | Equal | StrictSubset.

Definition Ordering_eqb (a b : Ordering) : bool :=
  match a, b with
  | Unordered, Unordered | StrictSuperset, StrictSuperset
  | Equal, Equal | StrictSubset, StrictSubset => true
  | _, _ => false
  end.

(** [assert(cond, msg)] and [unreachable()] of util/util: both throw a plain
    [Error]. *)
Definition assertionError (msg : string) : Error :=
  {| cls := PlainError; message := msg; stack := None |}.

Definition unreachable {A : Type} : Completion A :=
  Throw (assertionError "").

(** Truthiness of a string, and of a possibly [undefined] string. *)
Definition truthy (s : string) : bool := negb (String.eqb s "").

Definition truthy_opt (s : option string) : bool :=
  match s with Some x => truthy x | None => false end.

(** The line feed of JavaScript's ["\n"]. *)
Definition nl : string := String (ascii_of_nat 10) "".

(** [String(n)] for an integral number. *)
Definition numberToDecimal (n : Z) : string :=
  DecimalString.NilZero.string_of_int (Z.to_int n).

End JS.
Import JS.

(** ** Expectation matching: [getExpectedStatus] in [RunCaseSpecific.run] *)

Module Expectations.

Section GetExpectedStatus.

(** Queries and their comparison come from query/query and query/compare. *)
Variable TestQuery : Type.
Variable compareQueries : TestQuery -> TestQuery -> Ordering.

(** [TestQueryWithExpectation]. *)
Record TestQueryWithExpectation := mkDecl {
  query : TestQuery;
  expectation : Expectation
}.

(** The guard of the loop body: a declaration is passed over ([continue])
    when this is [false]. *)
Definition accumulates (ordering : Ordering) : bool :=
  negb (Ordering_eqb ordering Unordered || Ordering_eqb ordering StrictSubset).

(** The [for (const exp of expectations)] loop with its local [didSeeFail]. *)
Fixpoint getExpectedStatus_from (didSeeFail : bool)
    (expectations : list TestQueryWithExpectation)
    (selfQueryWithSubParams : TestQuery) : Completion Expectation :=
  match expectations with
  | [] => Normal (if didSeeFail then ExpFail else ExpPass)
  | exp :: rest =>
      let ordering := compareQueries (query exp) selfQueryWithSubParams in
      if Ordering_eqb ordering Unordered || Ordering_eqb ordering StrictSubset
      then getExpectedStatus_from didSeeFail rest selfQueryWithSubParams
      else
        match expectation exp with
        | ExpSkip => Normal ExpSkip
        | ExpFail => getExpectedStatus_from true rest selfQueryWithSubParams
        | ExpPass => unreachable
        end
  end.

Definition getExpectedStatus (expectations : list TestQueryWithExpectation)
    (selfQueryWithSubParams : TestQuery) : Completion Expectation :=
  getExpectedStatus_from false expectations selfQueryWithSubParams.

(** A declaration is applicable to a case when there is a list of
    declarations in which its presence changes the computed status. *)
Definition applicable (d : TestQueryWithExpectation) (self : TestQuery) : Prop :=
  exists l1 l2 : list TestQueryWithExpectation,
    getExpectedStatus (l1 ++ d :: l2) self <> getExpectedStatus (l1 ++ l2) self.

(** The declarations of a list that the loop looks at for [self]. *)
Definition matching (expectations : list TestQueryWithExpectation)
    (self : TestQuery) : list TestQueryWithExpectation :=
  List.filter (fun d => accumulates (compareQueries (query d) self)) expectations.

Definition says (e : Expectation) (d : TestQueryWithExpectation) : bool :=
  match e, expectation d with
  | ExpPass, ExpPass | ExpSkip, ExpSkip | ExpFail, ExpFail => true
  | _, _ => false
  end.

(** *** Helper lemmas *)

Lemma accumulates_cases (o : Ordering) :
  accumulates o = true <-> o = Equal \/ o = StrictSuperset.
Proof.
  destruct o; cbn; split; intros H; try discriminate; auto;
    destruct H as [H | H]; discriminate.
Qed.

Lemma accumulates_false_cases (o : Ordering) :
  accumulates o = false <-> o = Unordered \/ o = StrictSubset.
Proof.
  destruct o; cbn; split; intros H; try discriminate; auto;
    destruct H as [H | H]; discriminate.
Qed.

Lemma loop_guard (o : Ordering) :
  Ordering_eqb o Unordered || Ordering_eqb o StrictSubset = negb (accumulates o).
Proof. unfold accumulates. now rewrite negb_involutive. Qed.

(** One unfolding of the loop, phrased with [accumulates]. *)
Lemma getExpectedStatus_from_cons b d rest self :
  getExpectedStatus_from b (d :: rest) self =
  if accumulates (compareQueries (query d) self)
  then match expectation d with
       | ExpSkip => Normal ExpSkip
       | ExpFail => getExpectedStatus_from true rest self
       | ExpPass => unreachable
       end
  else getExpectedStatus_from b rest self.
Proof.
  cbn [getExpectedStatus_from]. rewrite loop_guard.
  now destruct (accumulates _).
Qed.

(** A declaration that the guard passes over can be dropped anywhere. *)
Lemma passed_over_anywhere b l1 d l2 self :
  accumulates (compareQueries (query d) self) = false ->
  getExpectedStatus_from b (l1 ++ d :: l2) self =
  getExpectedStatus_from b (l1 ++ l2) self.
Proof.
  intros Hd. revert b.
  induction l1 as [| e l1 IH]; intros b.
  - cbn [app]. rewrite getExpectedStatus_from_cons, Hd. reflexivity.
  - cbn [app]. rewrite !getExpectedStatus_from_cons.
    destruct (accumulates (compareQueries (query e) self)); [ | apply IH ].
    destruct (expectation e); auto.
Qed.

(** The loop only depends on the declarations it looks at. *)
Lemma getExpectedStatus_from_matching b exps self :
  getExpectedStatus_from b exps self =
  getExpectedStatus_from b (matching exps self) self.
Proof.
  revert b. induction exps as [| d rest IH]; intros b; [ reflexivity | ].
  unfold matching; cbn [List.filter]; fold (matching rest self).
  rewrite getExpectedStatus_from_cons.
  destruct (accumulates (compareQueries (query d) self)) eqn:Hd.
  - rewrite getExpectedStatus_from_cons, Hd.
    destruct (expectation d); auto.
  - apply IH.
Qed.

(** With only 'skip' and 'fail' among the declarations looked at, the loop
    computes the precedence rule. *)
Lemma getExpectedStatus_from_precedence b exps self :
  (forall d, In d exps ->
             accumulates (compareQueries (query d) self) = true ->
             expectation d <> ExpPass) ->
  getExpectedStatus_from b exps self =
  Normal (if existsb (says ExpSkip) (matching exps self) then ExpSkip
          else if b || existsb (says ExpFail) (matching exps self) then ExpFail
          else ExpPass).
Proof.
  revert b. induction exps as [| d rest IH]; intros b Hno.
  - cbn. now rewrite orb_false_r.
  - rewrite getExpectedStatus_from_cons.
    unfold matching; cbn [List.filter]; fold (matching rest self).
    destruct (accumulates (compareQueries (query d) self)) eqn:Hd.
    + cbn [existsb]. unfold says at 1 3.
      destruct (expectation d) eqn:He.
      * exfalso. apply (Hno d); [ now left | exact Hd | exact He ].
      * reflexivity.
      * rewrite IH by (intros d' Hin; apply Hno; now right).
        cbn [orb]. now rewrite orb_true_r.
    + apply IH. intros d' Hin; apply Hno; now right.
Qed.

(** A declaration is applicable exactly when the guard of the loop lets it
    through. *)
Lemma applicable_accumulates (d : TestQueryWithExpectation) (self : TestQuery) :
  applicable d self <-> accumulates (compareQueries (query d) self) = true.
Proof.
  split.
  - intros (l1 & l2 & Hdiff).
    destruct (accumulates (compareQueries (query d) self)) eqn:Hd; [ reflexivity | ].
    exfalso. apply Hdiff. unfold getExpectedStatus.
    now apply passed_over_anywhere.
  - intros Hd. exists [], []. unfold getExpectedStatus. cbn [app].
    rewrite getExpectedStatus_from_cons, Hd. cbn.
    destruct (expectation d); discriminate.
Qed.


(** *** Claims *)

(** C1 (amended). A declaration is applicable to a case exactly when
    [compareQueries] of its query against the case's query is [Equal] or
    [StrictSuperset]; declarations whose query is [Unordered] or a
    [StrictSubset] are passed over. *)
Theorem applicable_iff_equal_or_superset (d : TestQueryWithExpectation)
    (self : TestQuery) :
  applicable d self <->
  (compareQueries (query d) self = Equal \/
   compareQueries (query d) self = StrictSuperset).
Proof.
  rewrite <- accumulates_cases. apply applicable_accumulates.
Qed.


(** 'skip' short-circuits: nothing after the first applicable 'skip' is
    looked at, not even a declaration that would reach [unreachable()]. *)
Lemma skip_short_circuits l1 d l2 self :
  Forall (fun e => expectation e <> ExpPass) l1 ->
  accumulates (compareQueries (query d) self) = true ->
  expectation d = ExpSkip ->
  getExpectedStatus (l1 ++ d :: l2) self = Normal ExpSkip.
Proof.
  intros Hl1 Hd Hs. unfold getExpectedStatus. generalize false.
  induction Hl1 as [| e l1 He _ IH]; intros b; cbn [app];
    rewrite getExpectedStatus_from_cons.
  - now rewrite Hd, Hs.
  - destruct (accumulates (compareQueries (query e) self)); [ | apply IH ].
    destruct (expectation e); [ congruence | reflexivity | apply IH ].
Qed.

End GetExpectedStatus.

Arguments query {TestQuery} _.
Arguments expectation {TestQuery} _.
Arguments mkDecl {TestQuery} _ _.

End Expectations.

(** ** [LogMessageWithStack] (logging/log_message) *)

Module LogMessage.

(** [class LogMessageWithStack extends Error]: [message] and [stack] are the
    fields inherited from [Error]. [timesSeen] is a JavaScript number that
    only ever holds a count; it is an integer here. *)
Record LogMessageWithStack := mkLogMessage {
  name : string;
  message : string;
  stack : option string;
  stackHiddenMessage : option string;
  timesSeen : Z
}.

(** [constructor(name, ex)], with the field initialisers
    [stackHiddenMessage = undefined] and [timesSeen = 1]. *)
Definition constructor (name : string) (ex : Error) : LogMessageWithStack :=
  {| name := name;
     message := JS.message ex;
     stack := JS.stack ex;
     stackHiddenMessage := None;
     timesSeen := 1 |}.

Definition setStackHidden (stackHiddenMessage : string)
    (this : LogMessageWithStack) : LogMessageWithStack :=
  {| name := name this;
     message := message this;
     stack := stack this;
     stackHiddenMessage := Some stackHiddenMessage;
     timesSeen := timesSeen this |}.

(** [this.timesSeen++]. *)
Definition incrementTimesSeen (this : LogMessageWithStack) : LogMessageWithStack :=
  {| name := name this;
     message := message this;
     stack := stack this;
     stackHiddenMessage := stackHiddenMessage this;
     timesSeen := (timesSeen this + 1)%Z |}.

(** The last line that [toJSON] may add. *)
Definition duplicatedNote (timesSeen : Z) : string :=
  nl +:+ "  (duplicated " +:+ numberToDecimal timesSeen +:+
  " times (possibly non-consecutively); use ?debug=1 to show all)".

Section ToJSON.

(** [extractImportantStackTrace] comes from internal/stack. *)
Variable extractImportantStackTrace : LogMessageWithStack -> string.

(** The text built by [toJSON] before it looks at [timesSeen]. *)
Definition toJSON_head (this : LogMessageWithStack) : string :=
  let m := name this in
  let m := if truthy (message this) then m +:+ ": " +:+ message this else m in
  if match stackHiddenMessage this with None => true | Some _ => false end
     && truthy_opt (stack this)
  then m +:+ nl +:+ extractImportantStackTrace this
  else if truthy_opt (stackHiddenMessage this)
  then m +:+ nl +:+ "  (" +:+ default "" (stackHiddenMessage this) +:+ ")"
  else m.

Definition toJSON (this : LogMessageWithStack) : string :=
  let m := toJSON_head this in
  if (1 <? timesSeen this)%Z then m +:+ duplicatedNote (timesSeen this) else m.

End ToJSON.

End LogMessage.

(** ** The recorder as the framework sees it *)

(** The methods of [TestCaseRecorder] that test_group.ts calls. The class
    itself is in logging/test_case_recorder; [endSubCase] is the one method
    the caller wraps in [try]. *)
Class RecorderOps (Rec : Type) := {
  start : Rec -> Rec;
  finish : Rec -> Rec;
  beginSubCase : Rec -> Rec;
  endSubCase : Expectation -> Rec -> Rec * Completion unit;
  info : Error -> Rec -> Rec;
  skipped : Error -> Rec -> Rec;
  warn : Error -> Rec -> Rec;
  threw : Error -> Rec -> Rec
}.

(** ** The recorder of the specification *)

Module Recorder.

(** The status of a result record: ['pass' | 'fail' | 'skip' | 'warn']. *)
Inductive Status := StatusPass | StatusFail | StatusSkip | StatusWarn.

(** How bad the worst thing seen so far is. Advisory messages (info and
    warnings) are filed at [SevPass]: they attach text and change nothing. *)
Inductive Severity := SevPass | SevSkip | SevFail.

Definition worse (a b : Severity) : Severity :=
  match a, b with
  | SevFail, _ | _, SevFail => SevFail
  | SevSkip, _ | _, SevSkip => SevSkip
  | SevPass, SevPass => SevPass
  end.

Definition statusOf (s : Severity) : Status :=
  match s with
  | SevPass => StatusPass
  | SevSkip => StatusSkip
  | SevFail => StatusFail
  end.

(** Modelled from the spec: [TestCaseRecorder] (logging/test_case_recorder is
    not among the sources). Per the specification it is "mutable,
    per-run-case: a log of messages keyed by dedup signature, a current
    subcase index/state, and overall status accumulation"; [status] is the
    status of the result record, written by [finish()]. *)
Record TestCaseRecorder := mkRecorder {
  logs : list LogMessage.LogMessageWithStack;
  inSubCase : bool;
  subCaseStatus : Severity;
  finalCaseStatus : Severity;
  status : option Status
}.

(** A recorder as created for one case execution. *)
Definition newRecorder : TestCaseRecorder :=
  {| logs := []; inSubCase := false; subCaseStatus := SevPass;
     finalCaseStatus := SevPass; status := None |}.

Section Dedup.

(** The specification keys messages by "(error name, normalized message,
    normalized stack)" and does not say how text is normalized. *)
Variable normalizeMessage : string -> string.
Variable normalizeStack : string -> string.

Definition Signature : Type := string * string * option string.

Definition signature (m : LogMessage.LogMessageWithStack) : Signature :=
  (LogMessage.name m,
   normalizeMessage (LogMessage.message m),
   option_map normalizeStack (LogMessage.stack m)).

Definition Signature_eqb (a b : Signature) : bool :=
  let '(n1, m1, s1) := a in
  let '(n2, m2, s2) := b in
  String.eqb n1 n2 && String.eqb m1 m2 &&
  match s1, s2 with
  | Some x, Some y => String.eqb x y
  | None, None => true
  | _, _ => false
  end.

(** Modelled from the spec: "Logging a message with an identical dedup
    signature [...] to one already recorded increments that message's
    'times seen' counter rather than appending a duplicate". *)
Fixpoint fileMessage (m : LogMessage.LogMessageWithStack)
    (logs : list LogMessage.LogMessageWithStack)
    : list LogMessage.LogMessageWithStack :=
  match logs with
  | [] => [m]
  | seen :: rest =>
      if Signature_eqb (signature seen) (signature m)
      then LogMessage.incrementTimesSeen seen :: rest
      else seen :: fileMessage m rest
  end.

(** Modelled from the spec: the one place where messages are logged. A
    message counts towards the open subcase if there is one, else towards
    the case. *)
Definition logImpl (level : Severity) (name : string) (ex : Error)
    (this : TestCaseRecorder) : TestCaseRecorder :=
  {| logs := fileMessage (LogMessage.constructor name ex) (logs this);
     inSubCase := inSubCase this;
     subCaseStatus :=
       if inSubCase this then worse (subCaseStatus this) level
       else subCaseStatus this;
     finalCaseStatus :=
       if inSubCase this then finalCaseStatus this
       else worse (finalCaseStatus this) level;
     status := status this |}.

(** Modelled from the spec: "start() resets aggregate status". *)
Definition start (this : TestCaseRecorder) : TestCaseRecorder :=
  {| logs := logs this; inSubCase := inSubCase this;
     subCaseStatus := subCaseStatus this;
     finalCaseStatus := SevPass; status := status this |}.

(** Modelled from the spec: [finish()] turns what was accumulated into the
    status of the result. *)
Definition finish (this : TestCaseRecorder) : TestCaseRecorder :=
  {| logs := logs this; inSubCase := inSubCase this;
     subCaseStatus := subCaseStatus this;
     finalCaseStatus := finalCaseStatus this;
     status := Some (statusOf (finalCaseStatus this)) |}.

Definition beginSubCase (this : TestCaseRecorder) : TestCaseRecorder :=
  {| logs := logs this; inSubCase := true; subCaseStatus := SevPass;
     finalCaseStatus := finalCaseStatus this; status := status this |}.

(** Modelled from the spec: "if expected 'fail' but subcase passed cleanly"
    the recorder raises [UnexpectedPassError]; "otherwise pass/fail propagates
    normally", and an expected 'skip' has "no special handling". *)
Definition endSubCase (expectedStatus : Expectation)
    (this : TestCaseRecorder) : TestCaseRecorder * Completion unit :=
  let closed :=
    {| logs := logs this; inSubCase := false;
       subCaseStatus := subCaseStatus this;
       finalCaseStatus := worse (finalCaseStatus this) (subCaseStatus this);
       status := status this |} in
  match expectedStatus, subCaseStatus this with
  | ExpFail, SevPass =>
      (closed, Throw {| cls := UnexpectedPassError; JS.message := ""; JS.stack := None |})
  | _, _ => (closed, Normal tt)
  end.

(** The logging methods. The names under which messages are filed are not
    given by the specification; each method files under its own name. *)
Definition info (ex : Error) := logImpl SevPass "INFO" ex.
Definition warn (ex : Error) := logImpl SevPass "WARN" ex.
Definition skipped (ex : Error) := logImpl SevSkip "SKIP" ex.

(** Modelled from the spec: a [SkipTestCase] is "advisory, not a failure";
    any other thrown object is a failure of what was running. *)
Definition threw (ex : Error) (this : TestCaseRecorder) : TestCaseRecorder :=
  if isSkipTestCase ex then skipped ex this
  else logImpl SevFail "EXCEPTION" ex this.

(** The recorder offers the methods that the framework calls. *)
Definition ops : RecorderOps TestCaseRecorder :=
  Build_RecorderOps TestCaseRecorder
    start finish beginSubCase endSubCase info skipped warn threw.



(** *** Helper lemmas *)


Lemma signature_incrementTimesSeen (m : LogMessage.LogMessageWithStack) :
  signature (LogMessage.incrementTimesSeen m) = signature m.
Proof. reflexivity. Qed.




Lemma Signature_eqb_eq (a b : Signature) : Signature_eqb a b = true -> a = b.
Proof.
  destruct a as [[n1 m1] s1], b as [[n2 m2] s2]. cbn.
  intros H. apply andb_prop in H as [H Hs]. apply andb_prop in H as [Hn Hm].
  apply String.eqb_eq in Hn, Hm. subst.
  destruct s1 as [x |], s2 as [y |]; try discriminate; [ | reflexivity ].
  apply String.eqb_eq in Hs. now subst.
Qed.

(** Whatever is on file, a filed message is on file afterwards, under its
    signature. *)
Lemma fileMessage_on_file (m : LogMessage.LogMessageWithStack)
    (logs : list LogMessage.LogMessageWithStack) :
  exists stored, In stored (fileMessage m logs) /\ signature stored = signature m.
Proof.
  induction logs as [| seen rest IH]; cbn [fileMessage].
  - exists m. split; [ now left | reflexivity ].
  - destruct (Signature_eqb (signature seen) (signature m)) eqn:Heq.
    + exists (LogMessage.incrementTimesSeen seen). split; [ now left | ].
      rewrite signature_incrementTimesSeen. now apply Signature_eqb_eq.
    + destruct IH as (stored & Hin & Hsig). exists stored.
      split; [ now right | exact Hsig ].
Qed.




(** *** Claim *)

Section Rendering.

Variable extractImportantStackTrace : LogMessage.LogMessageWithStack -> string.


End Rendering.

End Dedup.

End Recorder.

(** ** Queries (query/query) *)

Module Query.

(** Modelled from the spec: a query has "four refinement levels, each
    optional": a suite, file path parts, test path parts and case params. A
    level left out is empty. *)
Record TestQuery (Params : Type) := mkQuery {
  suite : string;
  filePathParts : list string;
  testPathParts : list string;
  params : Params
}.
Arguments mkQuery {Params} _ _ _ _.
Arguments suite {Params} _.
Arguments filePathParts {Params} _.
Arguments testPathParts {Params} _.
Arguments params {Params} _.

(** [new TestQuerySingleCase(suite, filePathParts, testPathParts, params)]. *)
Definition TestQuerySingleCase {Params : Type} (suite : string)
    (filePathParts testPathParts : list string) (params : Params)
    : TestQuery Params :=
  mkQuery suite filePathParts testPathParts params.

End Query.

(** ** Running a case: [RunCaseSpecific] *)

Module RunCase.

Import Query.

Section RunCaseSpecific.

Context {Rec : Type} {recorder : RecorderOps Rec}.

(** The type of test parameters ([TestParams] of params_utils). *)
Context {Params : Type}.

(** A lifecycle hook is code of the test author: what it does with the
    recorder it was given, and how it ends. *)
Record Hook := mkHook {
  effect : Rec -> Rec;
  outcome : Completion unit
}.

(** What [new this.fixture(rec, params)], [inst.init()], [this.fn(inst)] and
    [inst.finalize()] do for given params. *)
Record FixtureBehaviour := mkFixture {
  construct : Hook;
  init : Hook;
  fn : Hook;
  finalize : Hook
}.

Record RunCaseSpecific := mkRunCase {
  testPath : list string;
  params : Params;
  subcases : option (list Params);
  fixture : Params -> FixtureBehaviour;
  testCreationStack : Error
}.

(** Calls made while a case runs, in order: the lifecycle hooks invoked and
    the recorder methods called by [run] and [runTest]. *)
Inductive Event :=
| CallConstructor (params : Params)
| CallInit
| CallFn
| CallFinalize
| RecStart
| RecFinish
| RecBeginSubCase
| RecEndSubCase (expectedStatus : Expectation)
| RecInfo (ex : Error)
| RecSkipped (ex : Error)
| RecWarn (ex : Error)
| RecThrew (ex : Error).

Definition isCallFinalize (e : Event) : bool :=
  match e with CallFinalize => true | _ => false end.

Definition isLifecycleCall (e : Event) : bool :=
  match e with
  | CallConstructor _ | CallInit | CallFn | CallFinalize => true
  | _ => false
  end.

(** *** Statements that use the recorder and may throw *)

Definition World : Type := Rec * list Event.

Definition M (A : Type) : Type := World -> World * Completion A.

Definition ret {A : Type} (a : A) : M A := fun w => (w, Normal a).

Definition bind {A B : Type} (m : M A) (k : A -> M B) : M B :=
  fun w =>
    match m w with
    | (w', Normal a) => k a w'
    | (w', Throw ex) => (w', Throw ex)
    end.

Definition throw {A : Type} (ex : Error) : M A := fun w => (w, Throw ex).

(** The completion of an expression that does not touch the recorder. *)
Definition lift {A : Type} (c : Completion A) : M A := fun w => (w, c).

(** [try { m } catch (ex) { handler }]. *)
Definition tryCatch {A : Type} (m : M A) (handler : Error -> M A) : M A :=
  fun w =>
    match m w with
    | (w', Normal a) => (w', Normal a)
    | (w', Throw ex) => handler ex w'
    end.

(** [try { m } finally { cleanup }]: the completion of [m] stands unless the
    cleanup itself throws. *)
Definition tryFinally {A : Type} (m : M A) (cleanup : M unit) : M A :=
  fun w =>
    let '(w1, c) := m w in
    match cleanup w1 with
    | (w2, Normal _) => (w2, c)
    | (w2, Throw ex) => (w2, Throw ex)
    end.

Notation "'do' x <- m ; k" := (bind m (fun x => k))
  (at level 10, x name, m at level 100, k at level 200).
Notation "m ;; k" := (bind m (fun _ => k))
  (at level 100, k at level 200, right associativity).

(** [assert(cond, msg)]. *)
Definition assert (cond : bool) (msg : string) : M unit :=
  if cond then ret tt else throw (assertionError msg).

(** A call of a recorder method. *)
Definition recCall (e : Event) (method : Rec -> Rec) : M unit :=
  fun w => ((method (fst w), (snd w ++ [e])%list), Normal tt).

Definition endSubCaseCall (expectedStatus : Expectation) : M unit :=
  fun w =>
    let '(rec, c) := endSubCase expectedStatus (fst w) in
    ((rec, (snd w ++ [RecEndSubCase expectedStatus])%list), c).

(** A call of a lifecycle hook. *)
Definition hookCall (e : Event) (h : Hook) : M unit :=
  fun w => ((effect h (fst w), (snd w ++ [e])%list), outcome h).

(** [new SkipTestCase(msg)]; the text of the stack an engine captures for an
    error that the framework constructs is not modelled. *)
Definition newSkipTestCase (msg : string) : Error :=
  {| cls := SkipTestCase; message := msg; stack := None |}.

Definition newError (msg : string) : Error :=
  {| cls := PlainError; message := msg; stack := None |}.

(** *** [runTest] *)

Definition runTest (this : RunCaseSpecific) (params : Params)
    (throwSkip : bool) (expectedStatus : Expectation) : M unit :=
  tryFinally
    (tryCatch
       (recCall RecBeginSubCase beginSubCase ;;
        match expectedStatus with
        | ExpSkip => throw (newSkipTestCase "Skipped by expectations")
        | _ => ret tt
        end ;;
        let inst := fixture this params in
        hookCall (CallConstructor params) (construct inst) ;;
        tryFinally
          (hookCall CallInit (init inst) ;;
           hookCall CallFn (fn inst))
          (hookCall CallFinalize (finalize inst)))
       (fun ex =>
          if throwSkip && isSkipTestCase ex then throw ex
          else recCall (RecThrew ex) (threw ex)))
    (tryCatch
       (endSubCaseCall expectedStatus)
       (fun ex =>
          assert (isUnexpectedPassError ex) "" ;;
          let ex := setMessage "Testcase passed unexpectedly." ex in
          let ex := setStack (stack (testCreationStack this)) ex in
          recCall (RecWarn ex) (warn ex))).

(** How the lifecycle of a constructed-or-not fixture ends: the constructor's
    exception if it throws; else the exception of [finalize()] if it throws;
    else that of [init()] or of the test body. *)
Definition lifecycleOutcome (inst : FixtureBehaviour) : Completion unit :=
  match outcome (construct inst) with
  | Throw ex => Throw ex
  | Normal _ =>
      match outcome (finalize inst) with
      | Throw ex => Throw ex
      | Normal _ =>
          match outcome (init inst) with
          | Throw ex => Throw ex
          | Normal _ => outcome (fn inst)
          end
      end
  end.

(** *** [run] *)

Section Run.

(** The helpers of params_utils, query/stringify_params and query/compare;
    the first two may throw. *)
Variable mergeParams : Params -> Params -> Completion Params.
Variable stringifyPublicParams : Params -> Completion string.
Variable compareQueries : TestQuery Params -> TestQuery Params -> Ordering.

(** The [try { ... } catch (ex) { ... }] statement in the body of
    [for (const subParams of this.subcases)]; its value is [skipCount] after
    the statement. *)
Definition runSubcase (this : RunCaseSpecific) (selfQuery : TestQuery Params)
    (getExpectedStatus : TestQuery Params -> Completion Expectation)
    (subParams : Params) (skipCount : nat) : M nat :=
  tryCatch
    (do params <- lift (mergeParams (params this) subParams);
     let subcaseQuery :=
       TestQuerySingleCase (suite selfQuery) (filePathParts selfQuery)
                           (testPathParts selfQuery) params in
     do expected <- lift (getExpectedStatus subcaseQuery);
     runTest this params true expected ;;
     ret skipCount)
    (fun ex =>
       if isSkipTestCase ex then
         let ex := setMessage ("subcase skipped: " +:+ message ex) ex in
         recCall (RecInfo ex) (info ex) ;;
         ret (S skipCount)
       else
         recCall (RecThrew ex) (threw ex) ;;
         ret skipCount).

(** The loop [for (const subParams of this.subcases)], with the counters
    [totalCount] and [skipCount] passed along. *)
Fixpoint runSubcases (this : RunCaseSpecific) (selfQuery : TestQuery Params)
    (getExpectedStatus : TestQuery Params -> Completion Expectation)
    (subcases : list Params) (totalCount skipCount : nat) : M (nat * nat) :=
  match subcases with
  | [] => ret (totalCount, skipCount)
  | subParams :: rest =>
      do s <- lift (stringifyPublicParams subParams);
      recCall (RecInfo (newError ("subcase: " +:+ s)))
              (info (newError ("subcase: " +:+ s))) ;;
      do skipCount <- runSubcase this selfQuery getExpectedStatus subParams skipCount;
      runSubcases this selfQuery getExpectedStatus rest (S totalCount) skipCount
  end.

Definition run (this : RunCaseSpecific) (selfQuery : TestQuery Params)
    (expectations : list (Expectations.TestQueryWithExpectation (TestQuery Params)))
    : M unit :=
  let getExpectedStatus :=
    Expectations.getExpectedStatus (TestQuery Params) compareQueries expectations in
  recCall RecStart start ;;
  match subcases this with
  | Some subcases =>
      do counts <- runSubcases this selfQuery getExpectedStatus subcases 0 0;
      (if Nat.eqb (snd counts) (fst counts) then
         recCall (RecSkipped (newSkipTestCase "all subcases were skipped"))
                 (skipped (newSkipTestCase "all subcases were skipped"))
       else ret tt)
  | None =>
      do expected <- lift (getExpectedStatus selfQuery);
      runTest this (params this) false expected
  end ;;
  recCall RecFinish finish.

End Run.

(** *** What is read off a finished statement *)

Definition recOf {A : Type} (r : World * Completion A) : Rec := fst (fst r).
Definition traceOf {A : Type} (r : World * Completion A) : list Event := snd (fst r).
Definition completionOf {A : Type} (r : World * Completion A) : Completion A := snd r.

Definition finalizeCalls (t : list Event) : nat :=
  length (List.filter isCallFinalize t).

(** The recorder raises nothing but [UnexpectedPassError] from
    [endSubCase]; [runTest] asserts as much in its [catch]. *)
Definition endSubCaseRaisesOnlyUnexpectedPass : Prop :=
  forall (e : Expectation) (rec : Rec) (ex : Error),
    snd (endSubCase e rec) = Throw ex -> isUnexpectedPassError ex = true.

(** *** Helper lemmas *)

Lemma finalizeCalls_app (t u : list Event) :
  finalizeCalls (t ++ u) = finalizeCalls t + finalizeCalls u.
Proof. unfold finalizeCalls. now rewrite List.filter_app, List.length_app. Qed.

Lemma lifecycle_filter_app (t u : list Event) :
  List.filter isLifecycleCall (t ++ u) =
  (List.filter isLifecycleCall t ++ List.filter isLifecycleCall u)%list.
Proof. apply List.filter_app. Qed.

(** Case analysis on everything [runTest] branches on. *)
Ltac runTest_unfold :=
  unfold runTest, tryFinally, tryCatch, bind, ret, throw, assert, lift,
    recCall, hookCall, endSubCaseCall, recOf, traceOf, completionOf.

Ltac runTest_cases :=
  runTest_unfold; cbn [fst snd];
  repeat match goal with
         | |- context [outcome ?h] => destruct (outcome h) as [[] | ?] eqn:?
         | |- context [endSubCase ?e ?r] =>
             destruct (endSubCase e r) as [? [[] | ?]] eqn:?
         | |- context [isUnexpectedPassError ?x] =>
             destruct (isUnexpectedPassError x) eqn:?
         | |- context [isSkipTestCase ?x] => destruct (isSkipTestCase x) eqn:?
         | |- context [(?b && _)%bool] => is_var b; destruct b
         | _ => progress cbn [fst snd andb]
         | _ => progress runTest_unfold
         end.

(** *** Claims *)

(** C3. In an execution of [runTest] in which the fixture constructor is
    called and succeeds, [finalize()] is invoked exactly once, whatever
    [init()] and the test body do; and an exception thrown by [finalize()]
    is handed to [rec.threw], or, being a [SkipTestCase] in a subcase run,
    is rethrown to [run]. *)
Theorem finalize_runs_exactly_once (this : RunCaseSpecific) (params : Params)
    (throwSkip : bool) (expectedStatus : Expectation) (w : World)
    (Hrec : endSubCaseRaisesOnlyUnexpectedPass)
    (Hexp : expectedStatus <> ExpSkip)
    (Hctor : outcome (construct (fixture this params)) = Normal tt) :
  let result := runTest this params throwSkip expectedStatus w in
  finalizeCalls (traceOf result) = finalizeCalls (snd w) + 1 /\
  forall ex : Error,
    outcome (finalize (fixture this params)) = Throw ex ->
    if throwSkip && isSkipTestCase ex
    then completionOf result = Throw ex
    else In (RecThrew ex) (traceOf result).
Proof.
  intros result. subst result. split.
  - destruct expectedStatus; [ | congruence | ];
      runTest_cases; try congruence;
      unfold finalizeCalls; cbn [fst snd];
      repeat rewrite List.filter_app; repeat rewrite List.length_app;
      cbn; lia.
  - intros ex Hfin.
    destruct expectedStatus; [ | congruence | ];
      runTest_cases; try congruence;
      repeat match goal with
             | H : Throw _ = Throw _ |- _ => inversion H; subst; clear H
             end;
      try congruence; cbn [fst snd];
      try (repeat rewrite in_app_iff; cbn; tauto);
      try (exfalso;
           match goal with
           | H : endSubCase ?e ?r = (_, Throw ?x) |- _ =>
               pose proof (Hrec e r x) as Hx; rewrite H in Hx;
               specialize (Hx eq_refl); congruence
           end).
Qed.

(** C10. When the expected status is 'skip', [runTest] throws
    [SkipTestCase('Skipped by expectations')] before the fixture is
    constructed: no lifecycle hook is invoked, the run does not depend on the
    fixture at all, and the skip is handed to [rec.threw] or, in a subcase
    run, rethrown to [run]. *)
Theorem skip_expectation_runs_no_hook (this : RunCaseSpecific) (subcaseParams : Params)
    (throwSkip : bool) (w : World)
    (Hrec : endSubCaseRaisesOnlyUnexpectedPass) :
  let result := runTest this subcaseParams throwSkip ExpSkip w in
  let skip := newSkipTestCase "Skipped by expectations" in
  List.filter isLifecycleCall (traceOf result) =
    List.filter isLifecycleCall (snd w) /\
  (forall other : Params -> FixtureBehaviour,
     runTest (mkRunCase (testPath this) (params this) (subcases this)
                        other (testCreationStack this))
             subcaseParams throwSkip ExpSkip w = result) /\
  (if throwSkip
   then completionOf result = Throw skip /\
        forall ex, ~ In (RecThrew ex) (skipn (length (snd w)) (traceOf result))
   else completionOf result = Normal tt /\ In (RecThrew skip) (traceOf result)).
Proof.
  intros result skip. subst result skip.
  split; [ | split ].
  - runTest_cases; repeat rewrite List.filter_app; cbn;
      now repeat rewrite app_nil_r.
  - intros other. reflexivity.
  - destruct throwSkip; runTest_cases;
      try match goal with
          | H : isSkipTestCase (newSkipTestCase _) = false |- _ =>
              cbv in H; discriminate H
          end;
      try match goal with
          | H : endSubCase ?e ?r = (_, Throw ?x) |- _ =>
              pose proof (Hrec e r x) as Hx; rewrite H in Hx;
              specialize (Hx eq_refl); congruence
          end;
      (split; [ reflexivity | ]);
      try (repeat rewrite in_app_iff; cbn; tauto);
      intros ex0;
      repeat rewrite <- List.app_assoc;
      rewrite List.skipn_app, List.skipn_all, Nat.sub_diag; cbn;
      intros Hin; repeat destruct Hin as [Hin | Hin]; congruence.
Qed.

End RunCaseSpecific.

End RunCase.

(** ** Cases run against the recorder of the specification *)

Module RecordedRun.

Import Query RunCase.

Section WithRecorder.

Variable normalizeMessage : string -> string.
Variable normalizeStack : string -> string.

#[local] Instance recorderOps : RecorderOps Recorder.TestCaseRecorder :=
  Recorder.ops normalizeMessage normalizeStack.

Context {Params : Type}.
Variable mergeParams : Params -> Params -> Completion Params.
Variable stringifyPublicParams : Params -> Completion string.
Variable compareQueries : TestQuery Params -> TestQuery Params -> Ordering.

Abbreviation Case := (@RunCaseSpecific Recorder.TestCaseRecorder Params).
Abbreviation Fixture := (@FixtureBehaviour Recorder.TestCaseRecorder).
Abbreviation RecorderHook := (@Hook Recorder.TestCaseRecorder).
Abbreviation RecorderWorld := (@World Recorder.TestCaseRecorder Params).

(** A hook is quiet when it leaves the status kept by the recorder alone: it
    may add to the log, and it ends by returning or throwing. *)
Definition sameStatus (a b : Recorder.TestCaseRecorder) : Prop :=
  Recorder.inSubCase a = Recorder.inSubCase b /\
  Recorder.subCaseStatus a = Recorder.subCaseStatus b /\
  Recorder.finalCaseStatus a = Recorder.finalCaseStatus b.

Definition quiet (h : RecorderHook) : Prop :=
  forall rec : Recorder.TestCaseRecorder, sameStatus (effect h rec) rec.

Definition quietFixture (f : Params -> Fixture) : Prop :=
  forall p : Params,
    quiet (construct (f p)) /\ quiet (init (f p)) /\
    quiet (fn (f p)) /\ quiet (finalize (f p)).



(** What [runTest] is asked to run: nothing when the expectation is 'skip'. *)
Definition attempt (this : Case) (p : Params)
    (expectedStatus : Expectation) : Completion unit :=
  match expectedStatus with
  | ExpSkip => Throw (newSkipTestCase "Skipped by expectations")
  | _ => lifecycleOutcome (fixture this p)
  end.





(** The warning that [runTest] files for an unexpected pass. *)
Definition unexpectedPassWarning (this : Case) : Error :=
  {| cls := UnexpectedPassError;
     message := "Testcase passed unexpectedly.";
     stack := stack (testCreationStack this) |}.

(** The calls of a subcase that is expected to fail, runs its whole
    lifecycle, and is then reported as an unexpected pass. *)
Definition unexpectedPassCalls (this : Case) (p : Params) : list Event :=
  [RecBeginSubCase; CallConstructor p; CallInit; CallFn; CallFinalize;
   RecEndSubCase ExpFail; RecWarn (unexpectedPassWarning this)].

(** The result of a case that passed with the unexpected-pass warning on
    file. *)
Definition passedWithWarning (this : Case)
    (result : RecorderWorld * Completion unit) : Prop :=
  completionOf result = Normal tt /\
  Recorder.status (recOf result) = Some Recorder.StatusPass /\
  exists stored,
    In stored (Recorder.logs (recOf result)) /\
    Recorder.signature normalizeMessage normalizeStack stored =
    Recorder.signature normalizeMessage normalizeStack
      (LogMessage.constructor "WARN" (unexpectedPassWarning this)).

(** *** Helper lemmas *)

Lemma worse_pass_r (s : Recorder.Severity) : Recorder.worse s Recorder.SevPass = s.
Proof. now destruct s. Qed.

Lemma worse_assoc (a b c : Recorder.Severity) :
  Recorder.worse (Recorder.worse a b) c = Recorder.worse a (Recorder.worse b c).
Proof. now destruct a, b, c. Qed.

(** Replaces the recorder that a quiet hook returns by a record with the
    status fields of the recorder it was given. *)
Ltac quiet_hooks :=
  repeat match goal with
         | Hq : quiet ?h |- context [effect ?h ?x] =>
             lazymatch x with
             | context [effect _ _] => fail
             | _ =>
                 let H := fresh "Hsame" in
                 pose proof (Hq x) as H;
                 destruct (effect h x);
                 unfold sameStatus in H; cbn in H;
                 destruct H as (? & ? & ?); subst
             end
         end.

Ltac run_unfold :=
  unfold runTest, tryFinally, tryCatch, bind, ret, throw, assert, lift,
    recCall, hookCall, endSubCaseCall, recOf, traceOf, completionOf.



Lemma finalCaseStatus_logImpl_outside level name ex (rec : Recorder.TestCaseRecorder) :
  Recorder.inSubCase rec = false ->
  Recorder.finalCaseStatus
    (Recorder.logImpl normalizeMessage normalizeStack level name ex rec) =
  Recorder.worse (Recorder.finalCaseStatus rec) level.
Proof. intros H. cbn. now rewrite H. Qed.









(** A subcase that is expected to fail and whose lifecycle completes without
    an exception: the exact calls made, and what the recorder holds. *)
Lemma runTest_unexpected_pass (this : Case) (p : Params) (throwSkip : bool)
    (w : RecorderWorld) :
  quietFixture (fixture this) ->
  lifecycleOutcome (fixture this p) = Normal tt ->
  let result := runTest this p throwSkip ExpFail w in
  let warning := unexpectedPassWarning this in
  completionOf result = Normal tt /\
  traceOf result = (snd w ++ unexpectedPassCalls this p)%list /\
  Recorder.inSubCase (recOf result) = false /\
  Recorder.finalCaseStatus (recOf result) = Recorder.finalCaseStatus (fst w) /\
  exists stored,
    In stored (Recorder.logs (recOf result)) /\
    Recorder.signature normalizeMessage normalizeStack stored =
    Recorder.signature normalizeMessage normalizeStack
      (LogMessage.constructor "WARN" warning).
Proof.
  intros Hq Hclean result warning. subst result warning.
  destruct (Hq p) as (Hc & Hi & Hf & Hz).
  destruct w as [[logs inSub sub final status] t].
  unfold lifecycleOutcome in Hclean.
  destruct (outcome (construct (fixture this p))) as [[] | ?] eqn:Ec; [ | discriminate ].
  destruct (outcome (finalize (fixture this p))) as [[] | ?] eqn:Ez; [ | discriminate ].
  destruct (outcome (init (fixture this p))) as [[] | ?] eqn:Ei; [ | discriminate ].
  run_unfold. cbn [fst snd]. rewrite Ec. cbn [fst snd].
  rewrite Ei. cbn [fst snd]. rewrite Hclean. cbn [fst snd]. rewrite Ez.
  cbn [fst snd]. cbn. quiet_hooks. cbn. run_unfold. cbn.
  repeat rewrite <- List.app_assoc. cbn [app].
  repeat split; try reflexivity.
  - now rewrite !worse_pass_r.
  - apply Recorder.fileMessage_on_file.
Qed.

(** The recorder raises nothing but [UnexpectedPassError] from
    [endSubCase]. *)
Lemma recorder_endSubCase_raises :
  endSubCaseRaisesOnlyUnexpectedPass (recorder := recorderOps).
Proof.
  intros e rec ex. cbn. unfold Recorder.endSubCase.
  destruct e, (Recorder.subCaseStatus rec); cbn; intros H;
    try discriminate; now injection H as <-.
Qed.

(** *** Claims *)

(** C4. A subcase whose expected status is 'fail' and whose lifecycle
    completes without an exception (hooks being quiet) is reported by
    [rec.warn] with the message "Testcase passed unexpectedly." and the
    stack of the test's creation, and nothing is handed to [rec.threw]; a
    case with a single such subcase, implicit or enumerated, ends with
    status 'pass' and that warning on file. *)
Theorem unexpected_pass_is_a_warning (this : Case) (selfQuery : TestQuery Params)
    (expectations : list (Expectations.TestQueryWithExpectation (TestQuery Params)))
    (w : RecorderWorld)
    (Hquiet : quietFixture (fixture this))
    (Hclosed : Recorder.inSubCase (fst w) = false) :
  let getExpectedStatus :=
    Expectations.getExpectedStatus (TestQuery Params) compareQueries expectations in
  let result := run mergeParams stringifyPublicParams compareQueries
                    this selfQuery expectations w in
  (forall (p : Params) (throwSkip : bool) (w' : RecorderWorld),
     lifecycleOutcome (fixture this p) = Normal tt ->
     let subcase := runTest this p throwSkip ExpFail w' in
     completionOf subcase = Normal tt /\
     traceOf subcase = (snd w' ++ unexpectedPassCalls this p)%list /\
     Recorder.finalCaseStatus (recOf subcase) = Recorder.finalCaseStatus (fst w')) /\
  (subcases this = None ->
   getExpectedStatus selfQuery = Normal ExpFail ->
   lifecycleOutcome (fixture this (params this)) = Normal tt ->
   passedWithWarning this result /\
   traceOf result =
     (snd w ++ RecStart :: unexpectedPassCalls this (params this) ++ [RecFinish])%list) /\
  (forall (sub p : Params) (s : string),
     subcases this = Some [sub] ->
     stringifyPublicParams sub = Normal s ->
     mergeParams (params this) sub = Normal p ->
     getExpectedStatus
       (TestQuerySingleCase (suite selfQuery) (filePathParts selfQuery)
                            (testPathParts selfQuery) p) = Normal ExpFail ->
     lifecycleOutcome (fixture this p) = Normal tt ->
     passedWithWarning this result /\
     traceOf result =
       (snd w ++ RecStart :: RecInfo (newError ("subcase: " +:+ s)) ::
        unexpectedPassCalls this p ++ [RecFinish])%list).
Proof.
  intros getES result. subst getES result. split; [ | split ].
  - intros p throwSkip w' Hclean.
    destruct (runTest_unexpected_pass this p throwSkip w' Hquiet Hclean)
      as (Hc & Ht & _ & Hfinal & _).
    auto.
  - intros Hsubs Hexp Hclean.
    unfold run. rewrite Hsubs. unfold bind, recCall, lift. rewrite Hexp.
    cbn [fst snd].
    set (w1 := (start (fst w), _)).
    destruct (runTest_unexpected_pass this (params this) false w1 Hquiet Hclean)
      as (Hc & Ht & Hin & Hfinal & Hstored).
    destruct (runTest this (params this) false ExpFail w1) as [[rec t] c].
    unfold passedWithWarning, recOf, traceOf, completionOf in *.
    cbn [fst snd] in *. subst c t.
    cbn [fst snd finish recorderOps Recorder.ops Recorder.finish
         Recorder.status Recorder.logs].
    rewrite Hfinal. split; [ split; [ | split ] | ]; try reflexivity.
    + exact Hstored.
    + subst w1. cbn [fst snd]. now rewrite <- !List.app_assoc.
  - intros sub p s Hsubs Hs Hmerge Hexp Hclean.
    unfold run. rewrite Hsubs. cbn [runSubcases].
    unfold runSubcase, tryCatch, bind, recCall, lift, ret.
    rewrite Hs, Hmerge, Hexp. cbn [fst snd].
    set (w1 := (info _ (start (fst w)), _)).
    destruct (runTest_unexpected_pass this p true w1 Hquiet Hclean)
      as (Hc & Ht & Hin & Hfinal & Hstored).
    destruct (runTest this p true ExpFail w1) as [[rec t] c].
    unfold passedWithWarning, recOf, traceOf, completionOf in *.
    cbn [fst snd] in *. subst c t.
    cbn [fst snd Nat.eqb finish recorderOps Recorder.ops Recorder.finish
         Recorder.status Recorder.logs].
    rewrite Hfinal.
    assert (Hstart : Recorder.finalCaseStatus
                       (info (newError ("subcase: " +:+ s)) (start (fst w))) =
                     Recorder.SevPass).
    { cbn [info start recorderOps Recorder.ops]. unfold Recorder.info.
      rewrite finalCaseStatus_logImpl_outside by exact Hclosed. reflexivity. }
    subst w1. cbn [fst snd]. rewrite Hstart.
    split; [ split; [ | split ] | ]; try reflexivity.
    + exact Hstored.
    + now rewrite <- !List.app_assoc.
Qed.


End WithRecorder.

End RecordedRun.

(** ** Defining tests: [TestGroup] and [TestBuilder] *)

Module TestGroups.

(** Modelled from the spec: [kPathSeparator] (query/separators); the query
    grammar "suite:file,parts:test,parts:param=val" separates path parts by
    a comma. *)
Definition kPathSeparator : ascii := ","%char.

(** [s.split(sep)] for a separator of one character. *)
Fixpoint split (sep : ascii) (s : string) : list string :=
  match s with
  | EmptyString => [""]
  | String c rest =>
      if Ascii.eqb c sep then "" :: split sep rest
      else
        match split sep rest with
        | [] => [String c ""]
        | part :: parts => String c part :: parts
        end
  end.

Section TestGroup.

(** The fixture class, the test function and the parameters are opaque
    here. *)
Variable FixtureClass : Type.
Variable TestFn : Type.
Variable Params : Type.

(** [decodeURIComponent] throws a [URIError] on a malformed escape. *)
Variable decodeURIComponent : string -> Completion string.

(** [validQueryPart.test(p)] and the text of the regular expression
    (query/validQueryPart). *)
Variable validQueryPart : string -> bool.
Variable validQueryPartText : string.

(** The helpers of params_utils and query/stringify_params, and the empty
    parameter object [{}]. *)
Variable mergeParams : Params -> Params -> Completion Params.
Variable stringifyPublicParams : Params -> Completion string.
Variable stringifyPublicParamsUniquely : Params -> Completion string.
Variable emptyParams : Params.

(** [testCases] is a [CaseSubcaseIterable]: pairs of case parameters and
    subcases, the latter possibly [undefined]. The iterable is taken as the
    list of what it yields. *)
Record TestBuilder := mkTestBuilder {
  testPath : list string;
  description : option string;
  testCreationStack : Error;
  fixture : FixtureClass;
  testFn : option TestFn;
  testCases : option (list (Params * option (list Params)))
}.

Record TestGroup := mkTestGroup {
  groupFixture : FixtureClass;
  seen : gset string;
  tests : list TestBuilder
}.

(** [new TestBuilder(testPath, fixture, testCreationStack)]. *)
Definition newTestBuilder (testPath : list string) (fixture : FixtureClass)
    (testCreationStack : Error) : TestBuilder :=
  {| testPath := testPath; description := None;
     testCreationStack := testCreationStack; fixture := fixture;
     testFn := None; testCases := None |}.

(** *** [TestGroup.checkName] and [TestGroup.test] *)

Definition checkName (name : string) (this : TestGroup)
    : TestGroup * Completion unit :=
  match decodeURIComponent name with
  | Throw ex => (this, Throw ex)
  | Normal decoded =>
      if negb (String.eqb name decoded) then
        (this, Throw (assertionError
           ("Not decodeURIComponent-idempotent: " +:+ name +:+ " !== " +:+ decoded)))
      else if bool_decide (name ∈ seen this) then
        (this, Throw (assertionError ("Duplicate test name: " +:+ name)))
      else
        ({| groupFixture := groupFixture this;
            seen := {[ name ]} ∪ seen this;
            tests := tests this |}, Normal tt)
  end.

(** [for (const p of parts) assert(validQueryPart.test(p), ...)]. *)
Fixpoint checkParts (parts : list string) : Completion unit :=
  match parts with
  | [] => Normal tt
  | p :: rest =>
      if validQueryPart p then checkParts rest
      else Throw (assertionError
             ("Invalid test name part " +:+ p +:+ "; must match " +:+
              validQueryPartText))
  end.

Definition test (name : string) (this : TestGroup)
    : TestGroup * Completion TestBuilder :=
  let testCreationStack :=
    {| cls := PlainError; message := "Test created: " +:+ name; stack := None |} in
  match checkName name this with
  | (this, Throw ex) => (this, Throw ex)
  | (this, Normal _) =>
      let parts := split kPathSeparator name in
      match checkParts parts with
      | Throw ex => (this, Throw ex)
      | Normal _ =>
          let test := newTestBuilder parts (groupFixture this) testCreationStack in
          ({| groupFixture := groupFixture this;
              seen := seen this;
              tests := tests this ++ [test] |}, Normal test)
      end
  end.

(** *** [TestBuilder.fn] and [TestBuilder.validate] *)

Definition fn (f : TestFn) (this : TestBuilder) : TestBuilder * Completion unit :=
  match testFn this with
  | Some _ => (this, Throw (assertionError ""))
  | None =>
      ({| testPath := testPath this; description := description this;
          testCreationStack := testCreationStack this; fixture := fixture this;
          testFn := Some f; testCases := testCases this |}, Normal tt)
  end.

(** The body of the two nested loops of [validate], for one subcase. *)
Definition validateEntry (testPathString : string)
    (caseParams subcaseParams : Params) (seen : gset string)
    : Completion (gset string) :=
  match mergeParams caseParams subcaseParams with
  | Throw ex => Throw ex
  | Normal params =>
      match stringifyPublicParams params with
      | Throw ex => Throw ex
      | Normal testcaseString =>
          match stringifyPublicParamsUniquely params with
          | Throw ex => Throw ex
          | Normal testcaseStringUnique =>
              if bool_decide (testcaseStringUnique ∈ seen) then
                Throw (assertionError
                  ("Duplicate public test case params for test " +:+
                   testPathString +:+ ": " +:+ testcaseString))
              else Normal ({[ testcaseStringUnique ]} ∪ seen)
          end
      end
  end.

(** [for (const subcaseParams of subcases ?? [{}])]. *)
Fixpoint validateSubcases (testPathString : string) (caseParams : Params)
    (subcases : list Params) (seen : gset string) : Completion (gset string) :=
  match subcases with
  | [] => Normal seen
  | subcaseParams :: rest =>
      match validateEntry testPathString caseParams subcaseParams seen with
      | Throw ex => Throw ex
      | Normal seen => validateSubcases testPathString caseParams rest seen
      end
  end.

(** [for (const [caseParams, subcases] of this.testCases)]. *)
Fixpoint validateCases (testPathString : string)
    (cases : list (Params * option (list Params))) (seen : gset string)
    : Completion (gset string) :=
  match cases with
  | [] => Normal seen
  | (caseParams, subcases) :: rest =>
      match validateSubcases testPathString caseParams
              (default [emptyParams] subcases) seen with
      | Throw ex => Throw ex
      | Normal seen => validateCases testPathString rest seen
      end
  end.

(** [validate] assigns to no field of [this]: the builder it returns is the
    one it was given. *)
Definition validate (this : TestBuilder) : TestBuilder * Completion unit :=
  let testPathString := String.concat (String kPathSeparator "") (testPath this) in
  match testFn this with
  | None =>
      (this, Throw (assertionError
         (let s := "Test is missing .fn(): " +:+ testPathString in
          if truthy_opt (stack (testCreationStack this))
          then s +:+ nl +:+ "-> test created at:" +:+ nl +:+
               default "" (stack (testCreationStack this))
          else s)))
  | Some _ =>
      match testCases this with
      | None => (this, Normal tt)
      | Some cases =>
          match validateCases testPathString cases ∅ with
          | Throw ex => (this, Throw ex)
          | Normal _ => (this, Normal tt)
          end
      end
  end.

(** *** The expanded case-by-subcase set, in the words of the specification *)

Definition expand (cases : list (Params * option (list Params)))
    : list (Params * Params) :=
  flat_map (fun '(caseParams, subcases) =>
              map (pair caseParams) (default [emptyParams] subcases)) cases.

(** The unique stringification of the merged parameters of an entry, when
    merging and both stringifications succeed. *)
Definition uniqueKey (entry : Params * Params) : option string :=
  match mergeParams (fst entry) (snd entry) with
  | Throw _ => None
  | Normal params =>
      match stringifyPublicParams params, stringifyPublicParamsUniquely params with
      | Normal _, Normal unique => Some unique
      | _, _ => None
      end
  end.

Fixpoint uniqueKeys (entries : list (Params * Params)) : option (list string) :=
  match entries with
  | [] => Some []
  | entry :: rest =>
      match uniqueKey entry, uniqueKeys rest with
      | Some k, Some ks => Some (k :: ks)
      | _, _ => None
      end
  end.

Definition fails {A S : Type} (r : S * Completion A) : Prop :=
  exists ex, snd r = Throw ex.

(** Two entries of the expanded set have equal unique stringification. *)
Definition hasDuplicateKeys (entries : list (Params * Params)) : Prop :=
  exists (i j : nat) (e1 e2 : Params * Params) (k : string),
    i <> j /\ nth_error entries i = Some e1 /\ nth_error entries j = Some e2 /\
    uniqueKey e1 = Some k /\ uniqueKey e2 = Some k.

(** The two nested loops as one loop over the expanded set. *)
Fixpoint validateEntries (testPathString : string)
    (entries : list (Params * Params)) (seen : gset string)
    : Completion (gset string) :=
  match entries with
  | [] => Normal seen
  | entry :: rest =>
      match validateEntry testPathString (fst entry) (snd entry) seen with
      | Throw ex => Throw ex
      | Normal seen => validateEntries testPathString rest seen
      end
  end.

(** *** Helper lemmas *)

Lemma checkParts_ok (parts : list string) :
  checkParts parts = Normal tt <-> Forall (fun p => validQueryPart p = true) parts.
Proof.
  induction parts as [| p rest IH]; cbn [checkParts].
  - split; [ constructor | reflexivity ].
  - destruct (validQueryPart p) eqn:Hp.
    + rewrite IH. split; [ now constructor | now inversion 1 ].
    + split; [ discriminate | ]. inversion 1; congruence.
Qed.

Lemma checkParts_throws (parts : list string) :
  (exists ex, checkParts parts = Throw ex) <->
  Exists (fun p => validQueryPart p = false) parts.
Proof.
  induction parts as [| p rest IH]; cbn [checkParts].
  - split; [ intros [ex H]; discriminate | inversion 1 ].
  - destruct (validQueryPart p) eqn:Hp.
    + rewrite IH. split; [ now right | ].
      inversion 1; [ congruence | assumption ].
    + split; [ now left | eauto ].
Qed.

Lemma validateEntries_app path es1 es2 seen :
  validateEntries path (es1 ++ es2) seen =
  match validateEntries path es1 seen with
  | Throw ex => Throw ex
  | Normal seen => validateEntries path es2 seen
  end.
Proof.
  revert seen. induction es1 as [| e es1 IH]; intros seen; cbn; [ reflexivity | ].
  destruct (validateEntry path (fst e) (snd e) seen); [ apply IH | reflexivity ].
Qed.

Lemma validateSubcases_entries path caseParams subcases seen :
  validateSubcases path caseParams subcases seen =
  validateEntries path (map (pair caseParams) subcases) seen.
Proof.
  revert seen. induction subcases as [| sub rest IH]; intros seen; cbn;
    [ reflexivity | ].
  destruct (validateEntry path caseParams sub seen); [ apply IH | reflexivity ].
Qed.

Lemma validateCases_entries path cases seen :
  validateCases path cases seen = validateEntries path (expand cases) seen.
Proof.
  revert seen. induction cases as [| [caseParams subcases] rest IH]; intros seen;
    [ reflexivity | ].
  cbn [validateCases expand flat_map]. fold (expand rest).
  rewrite validateEntries_app, validateSubcases_entries.
  destruct (validateEntries path _ seen); [ apply IH | reflexivity ].
Qed.

(** One entry passes exactly when it has a key that was not seen yet. *)
Lemma validateEntry_ok path entry seen seen' :
  validateEntry path (fst entry) (snd entry) seen = Normal seen' <->
  exists k, uniqueKey entry = Some k /\ (k ∉ seen) /\ seen' = ({[ k ]} ∪ seen).
Proof.
  unfold validateEntry, uniqueKey.
  destruct (mergeParams (fst entry) (snd entry)) as [params | ex].
  2: { split; [ discriminate | intros (k & H & _); discriminate ]. }
  destruct (stringifyPublicParams params) as [str | ex].
  2: { split; [ discriminate | intros (k & H & _); discriminate ]. }
  destruct (stringifyPublicParamsUniquely params) as [unique | ex].
  2: { split; [ discriminate | intros (k & H & _); discriminate ]. }
  destruct (bool_decide (unique ∈ seen)) eqn:Hin.
  - apply bool_decide_eq_true in Hin.
    split; [ discriminate | ]. intros (k & Hk & Hnot & _).
    injection Hk as <-. contradiction.
  - apply bool_decide_eq_false in Hin. split.
    + intros H. injection H as <-. eauto.
    + intros (k & Hk & _ & ->). now injection Hk as <-.
Qed.

(** The loop passes exactly when every entry has a key, no key repeats, and
    none was seen before. *)
Lemma validateEntries_ok path entries seen :
  (exists seen', validateEntries path entries seen = Normal seen') <->
  exists keys, uniqueKeys entries = Some keys /\ List.NoDup keys /\
               forall k, In k keys -> k ∉ seen.
Proof.
  revert seen. induction entries as [| entry rest IH]; intros seen.
  - cbn. split.
    + intros _. exists []. repeat split; [ constructor | intros k [] ].
    + eauto.
  - cbn [validateEntries uniqueKeys]. split.
    + intros [seen' H].
      destruct (validateEntry path (fst entry) (snd entry) seen) as [seen1 | ex] eqn:He;
        [ | discriminate ].
      apply validateEntry_ok in He as (k & Hk & Hnot & ->).
      destruct (proj1 (IH _) (ex_intro _ seen' H)) as (keys & Hkeys & Hnd & Hfresh).
      exists (k :: keys). rewrite Hk, Hkeys. split; [ reflexivity | ]. split.
      * constructor; [ | exact Hnd ].
        intros Hin. apply (Hfresh k Hin).
        apply elem_of_union_l, elem_of_singleton. reflexivity.
      * intros k' [<- | Hin]; [ exact Hnot | ].
        intros Hseen. apply (Hfresh k' Hin). now apply elem_of_union_r.
    + intros (keys & Hkeys & Hnd & Hfresh).
      destruct (uniqueKey entry) as [k |] eqn:Hk; [ | discriminate ].
      destruct (uniqueKeys rest) as [ks |] eqn:Hks; [ | discriminate ].
      injection Hkeys as <-.
      assert (He : validateEntry path (fst entry) (snd entry) seen =
                   Normal ({[ k ]} ∪ seen)).
      { apply validateEntry_ok. exists k. repeat split; [ exact Hk | ].
        apply Hfresh. now left. }
      rewrite He. apply IH. exists ks. split; [ reflexivity | ].
      inversion Hnd as [| ? ? Hnotin Hnd']; subst. split; [ exact Hnd' | ].
      intros k' Hin. specialize (Hfresh k' (or_intror Hin)).
      assert (Hkk : k' <> k) by (intros ->; contradiction).
      intros Hu. apply elem_of_union in Hu as [Hu | Hu]; [ | contradiction ].
      apply elem_of_singleton in Hu. contradiction.
Qed.

(** *** Claims *)

(** C8. [test(name)] fails exactly when [name] is not idempotent under
    [decodeURIComponent], or is the name of a test already registered in the
    group, or has a path segment that [validQueryPart] rejects; a failed call
    appends no test; otherwise the new test is appended and [name] is
    recorded as seen. *)
Theorem test_rejects_bad_names (name : string) (this : TestGroup) :
  let result := test name this in
  (fails result <->
   (decodeURIComponent name <> Normal name \/
    name ∈ seen this \/
    Exists (fun p => validQueryPart p = false) (split kPathSeparator name))) /\
  (fails result -> tests (fst result) = tests this) /\
  (~ fails result ->
   exists builder,
     snd result = Normal builder /\
     testPath builder = split kPathSeparator name /\
     tests (fst result) = (tests this ++ [builder])%list /\
     seen (fst result) = {[ name ]} ∪ seen this).
Proof.
  intros result. subst result. unfold test, checkName, fails.
  destruct (decodeURIComponent name) as [decoded | ex] eqn:Hdec; cbn [fst snd].
  2: { split; [ | split ].
       - split; [ intros _; left; discriminate | eauto ].
       - reflexivity.
       - intros H. exfalso. apply H. eauto. }
  destruct (String.eqb_spec name decoded) as [<- | Hne]; cbn [negb fst snd].
  2: { split; [ | split ].
       - split; [ intros _; left; congruence | eauto ].
       - reflexivity.
       - intros H. exfalso. apply H. eauto. }
  destruct (bool_decide (name ∈ seen this)) eqn:Hseen; cbn [fst snd].
  { apply bool_decide_eq_true in Hseen. split; [ | split ].
    - split; [ intros _; right; now left | eauto ].
    - reflexivity.
    - intros H. exfalso. apply H. eauto. }
  apply bool_decide_eq_false in Hseen.
  destruct (checkParts (split kPathSeparator name)) as [[] | ex] eqn:Hparts;
    cbn [fst snd tests seen].
  - apply checkParts_ok in Hparts. split; [ | split ].
    + split; [ intros [ex H]; discriminate | ].
      intros [H | [H | H]]; [ congruence | contradiction | ].
      exfalso. rewrite List.Forall_forall in Hparts.
      apply List.Exists_exists in H as (p & Hin & Hp).
      specialize (Hparts p Hin). congruence.
    + intros [ex H]. discriminate.
    + intros _. eexists. repeat split; reflexivity.
  - split; [ | split ].
    + split; [ intros _; right; right; apply checkParts_throws; eauto | eauto ].
    + reflexivity.
    + intros H. exfalso. apply H. eauto.
Qed.

(** C7 (amended). [validate()] succeeds exactly when a body function is
    attached and, if the builder has a parameterization, every entry of the
    expanded case-by-subcase set merges and stringifies and no two entries
    have equal unique public-parameter stringification; it never modifies
    the builder. *)
Theorem validate_succeeds_iff (this : TestBuilder) :
  (snd (validate this) = Normal tt <->
   (testFn this <> None /\
    forall cases, testCases this = Some cases ->
      exists keys, uniqueKeys (expand cases) = Some keys /\ List.NoDup keys)) /\
  fst (validate this) = this.
Proof.
  unfold validate. split.
  - destruct (testFn this) as [f |]; cbn [snd].
    2: { split; [ discriminate | intros [H _]; congruence ]. }
    destruct (testCases this) as [cases |]; cbn [snd].
    2: { split; [ | reflexivity ]. intros _. split; [ discriminate | discriminate ]. }
    rewrite validateCases_entries.
    pose proof (validateEntries_ok
                  (String.concat (String kPathSeparator "") (testPath this))
                  (expand cases) ∅) as Hok.
    destruct (validateEntries _ (expand cases) ∅) as [seen' | ex]; cbn [snd].
    + split; [ | reflexivity ]. intros _. split; [ discriminate | ].
      intros cases' Hc. injection Hc as <-.
      destruct (proj1 Hok (ex_intro _ seen' eq_refl)) as (keys & Hk & Hnd & _).
      eauto.
    + split; [ discriminate | ]. intros [_ H].
      destruct (H cases eq_refl) as (keys & Hk & Hnd).
      destruct (proj2 Hok) as [seen' Hs]; [ | discriminate ].
      exists keys. repeat split; [ exact Hk | exact Hnd | ].
      intros k _. apply not_elem_of_empty.
  - destruct (testFn this); [ | reflexivity ].
    destruct (testCases this); [ | reflexivity ].
    now destruct (validateCases _ _ _).
Qed.

End TestGroup.

End TestGroups.

(** ** Checking the contents of typed arrays (check_contents) *)

Module CheckContents.

(** The integer typed-array classes. Arrays of floating-point numbers are
    outside this embedding: their elements are not integers and they are
    printed with [toPrecision]. *)
Inductive TypedArrayConstructor :=
| Int8Array | Uint8Array | Uint8ClampedArray
| Int16Array | Uint16Array
| Int32Array | Uint32Array.

Definition BYTES_PER_ELEMENT (ctor : TypedArrayConstructor) : Z :=
  match ctor with
  | Int8Array | Uint8Array | Uint8ClampedArray => 1
  | Int16Array | Uint16Array => 2
  | Int32Array | Uint32Array => 4
  end.

Definition TypedArrayConstructor_eqb (a b : TypedArrayConstructor) : bool :=
  match a, b with
  | Int8Array, Int8Array | Uint8Array, Uint8Array
  | Uint8ClampedArray, Uint8ClampedArray
  | Int16Array, Int16Array | Uint16Array, Uint16Array
  | Int32Array, Int32Array | Uint32Array, Uint32Array => true
  | _, _ => false
  end.

Record TypedArray := mkTypedArray {
  constructor : TypedArrayConstructor;
  elements : list Z
}.

(** [a[i]] for an index inside the array. *)
Definition at_ (a : TypedArray) (i : nat) : Z := nth i (elements a) 0%Z.

(** [a.subarray(begin, end)] as the list of its elements. *)
Definition subarray (a : TypedArray) (begin end_ : Z) : list Z :=
  firstn (Z.to_nat (end_ - begin)) (skipn (Z.to_nat begin) (elements a)).

(** A cell of the table: [number | string]. *)
Inductive Cell :=
| CellString (s : string)
| CellNumber (n : Z).

(** [s.padStart(targetLength, pad)] for a pad of one character. *)
Definition padStart (targetLength : nat) (pad : ascii) (s : string) : string :=
  string_of_list_ascii (repeat pad (targetLength - String.length s)) +:+ s.

Definition space : ascii := " "%char.

(** [Math.abs(number).toString(16)]. *)
Definition toHex (n : Z) : string :=
  HexadecimalString.NilZero.string_of_uint (N.to_hex_uint (Z.to_N (Z.abs n))).

(** [intToPaddedHex(number, { byteLength })]. *)
Definition intToPaddedHex (number byteLength : Z) : string :=
  let s := toHex number in
  let s := if (byteLength =? 0)%Z then s
           else padStart (Z.to_nat (byteLength * 2)) "0"%char s in
  if (number <? 0)%Z then "-" +:+ s else s.

(** *** [generatePrettyTable] *)

Section PrettyTable.

Variable fillToWidth : nat.
Variable numberToString : Z -> string.

(** [typeof r.value === 'number' ? numberToString(r.value) : r.value]. *)
Definition cellText (c : Cell) : string :=
  match c with
  | CellString s => s
  | CellNumber n => numberToString n
  end.

Definition isUndefined (cell : option string) : bool :=
  match cell with None => true | Some _ => false end.

Definition cellLength (cell : option string) : nat :=
  match cell with None => 0 | Some c => String.length c end.

(** The body of [for (;;)], once per column. [iters] holds what each row's
    iterator has not produced yet. For rows that are finite lists the loop
    ends at the column after the last cell of the longest row, where every
    iterator is done; [fuel] only has to exceed that number of columns. *)
Fixpoint tableColumns (fuel : nat) (iters : list (list string))
    (rowStrings : list string) (totalTableWidth : nat) : list string :=
  match fuel with
  | O => rowStrings
  | S fuel =>
      let cellsForColumn := map (@hd_error string) iters in
      if forallb isUndefined cellsForColumn then rowStrings
      else
        let colWidth := list_max (map cellLength cellsForColumn) + 1 in
        let rowStrings :=
          zip_with (fun rowString cell =>
                      match cell with
                      | Some c => rowString +:+ padStart colWidth space c
                      | None => rowString
                      end) rowStrings cellsForColumn in
        let totalTableWidth := totalTableWidth + colWidth in
        if (fillToWidth <=? totalTableWidth)%nat then
          zip_with (fun rowString cell =>
                      match cell with
                      | Some _ => rowString +:+ " ..."
                      | None => rowString
                      end) rowStrings cellsForColumn
        else tableColumns fuel (map (@tl string) iters) rowStrings totalTableWidth
  end.

Definition generatePrettyTable (rows : list (list Cell)) : string :=
  let rowStrings := map (fun _ => "") rows in
  let iters := map (map cellText) rows in
  String.concat nl
    (tableColumns (S (list_max (map (@length Cell) rows))) iters rowStrings 0).

End PrettyTable.

(** *** [checkElementsPassPredicate] and [checkElementsEqual] *)

(** An entry of [predicatePrinter]. *)
Record PredicatePrinterRow := mkPrinterRow {
  leftHeader : string;
  getValueForCell : nat -> Z
}.

(** The first loop: [failedElementsFirstMaybe] and the sparse array
    [failedElements], kept as the list of the indices set to [true]. *)
Fixpoint scanElements (predicate : nat -> Z -> bool) (i : nat) (rest : list Z)
    (failedElementsFirstMaybe : option nat) (failedElements : list nat)
    : option nat * list nat :=
  match rest with
  | [] => (failedElementsFirstMaybe, failedElements)
  | value :: rest =>
      if negb (predicate i value) then
        scanElements predicate (S i) rest
          (match failedElementsFirstMaybe with
           | None => Some i
           | Some first => Some first
           end)
          (failedElements ++ [i])
      else
        scanElements predicate (S i) rest failedElementsFirstMaybe failedElements
  end.

(** [failedElements.length] and [failedElements[i]] of the sparse array. *)
Definition sparseLength (indices : list nat) : Z :=
  match indices with
  | [] => 0
  | _ => Z.of_nat (list_max indices) + 1
  end.

Definition sparseGet (indices : list nat) (i : nat) : bool :=
  existsb (Nat.eqb i) indices.

(** [new ErrorWithExtra(msg, ...)]: an error with that message; the extra
    data is not modelled. *)
Definition ErrorWithExtra (msg : string) : Error :=
  {| cls := PlainError; message := msg; stack := None |}.

Definition checkElementsPassPredicate (actual : TypedArray)
    (predicate : nat -> Z -> bool) (predicatePrinter : list PredicatePrinterRow)
    : option Error :=
  let size := Z.of_nat (length (elements actual)) in
  let ctor := constructor actual in
  let '(failedElementsFirstMaybe, failedElements) :=
    scanElements predicate 0 (elements actual) None [] in
  match failedElementsFirstMaybe with
  | None => None
  | Some failedElementsFirst =>
      let failedElementsFirst := Z.of_nat failedElementsFirst in
      let failedElementsLast := (sparseLength failedElements - 1)%Z in
      let printElementsStart := Z.max 0 (failedElementsFirst - 1) in
      let printElementsEnd := Z.min size (failedElementsLast + 2) in
      let printElementsCount := (printElementsEnd - printElementsStart)%Z in
      let numberToString := fun n => intToPaddedHex n (BYTES_PER_ELEMENT ctor) in
      let numberPrefix := "0x:" in
      let printActual := subarray actual printElementsStart printElementsEnd in
      let printExpected :=
        map (fun printer =>
               CellString (leftHeader printer) :: CellString "" ::
               map (fun i => CellNumber
                               (getValueForCell printer (Z.to_nat printElementsStart + i)))
                   (seq 0 (Z.to_nat printElementsCount)))
            predicatePrinter in
      let printFailedValueMarkers :=
        CellString "failed ->" :: CellString "" ::
        map (fun i => CellString
                        (if sparseGet failedElements (Z.to_nat printElementsStart + i)
                         then "xx" else ""))
            (seq 0 (Z.to_nat printElementsCount)) in
      let msg :=
        "Array had unexpected contents at indices " +:+
        numberToDecimal failedElementsFirst +:+ " through " +:+
        numberToDecimal failedElementsLast +:+ "." +:+ nl +:+
        " Starting at index " +:+ numberToDecimal printElementsStart +:+ ":" +:+ nl +:+
        generatePrettyTable 120 numberToString
          ((CellString "actual ==" :: CellString numberPrefix ::
            map CellNumber printActual) ::
           printFailedValueMarkers :: printExpected) in
      Some (ErrorWithExtra msg)
  end.

Definition checkElementsEqualGenerated (actual : TypedArray)
    (generator : nat -> Z) : option Error :=
  let error :=
    checkElementsPassPredicate actual
      (fun index value => (value =? generator index)%Z)
      [ {| leftHeader := "expected =="; getValueForCell := generator |} ] in
  match error with
  | Some error => Some (ErrorWithExtra (message error))
  | None => None
  end.

Definition checkElementsEqual (actual expected : TypedArray)
    : Completion (option Error) :=
  if negb (TypedArrayConstructor_eqb (constructor actual) (constructor expected))
  then Throw (assertionError "TypedArray type mismatch")
  else if negb (length (elements actual) =? length (elements expected))%nat
  then Throw (assertionError "size mismatch")
  else Normal (checkElementsEqualGenerated actual (at_ expected)).

(** *** The table in closed form *)

Section Rendering.

Variable fillToWidth : nat.

(** The widths of the first [n] columns: the longest cell plus one. *)
Fixpoint columnWidths (n : nat) (rows : list (list string)) : list nat :=
  match n with
  | O => []
  | S n =>
      (list_max (map cellLength (map (@hd_error string) rows)) + 1)
        :: columnWidths n (map (@tl string) rows)
  end.

(** The cells of a row, right-aligned in columns of the given widths. *)
Fixpoint renderRow (widths : list nat) (row : list string) : string :=
  match widths, row with
  | w :: widths, c :: row => padStart w space c +:+ renderRow widths row
  | _, _ => ""
  end.

(** How many columns are printed when [total] characters are already on the
    line, and whether the line is cut off with an ellipsis: printing stops
    after the first column with which the width reaches [fillToWidth]. *)
Fixpoint printed (total : nat) (widths : list nat) : nat * bool :=
  match widths with
  | [] => (0, false)
  | w :: widths =>
      if (fillToWidth <=? total + w)%nat then (1, true)
      else (S (fst (printed (total + w) widths)), snd (printed (total + w) widths))
  end.

Definition ellipsis (cut : bool) : string := if cut then " ..." else "".

(** The lines of the table for rows of [n] cells each. *)
Definition renderTable (n : nat) (rows : list (list string)) : list string :=
  let widths := columnWidths n rows in
  let shown := printed 0 widths in
  map (fun row => renderRow (firstn (fst shown) widths) row +:+ ellipsis (snd shown))
      rows.

(** *** Helper lemmas *)

Lemma append_nil_r (s : string) : s +:+ "" = s.
Proof.
  induction s as [| c s IH]; [ reflexivity | ].
  change (String c (s +:+ "") = String c s). now rewrite IH.
Qed.

Lemma append_assoc (a b c : string) : (a +:+ b) +:+ c = a +:+ (b +:+ c).
Proof.
  induction a as [| x a IH]; [ reflexivity | ].
  change (String x ((a +:+ b) +:+ c) = String x (a +:+ (b +:+ c))).
  now rewrite IH.
Qed.

Lemma zip_with_ext_in {A B C : Type} (f g : A -> B -> C) (l : list A) (k : list B) :
  (forall a b, In b k -> f a b = g a b) -> zip_with f l k = zip_with g l k.
Proof.
  revert l. induction k as [| b k IH]; intros l Hfg.
  - now rewrite !zip_with_nil_r.
  - destruct l as [| a l]; [ reflexivity | ]. cbn.
    rewrite Hfg by now left. f_equal. apply IH. intros a' b' Hin.
    apply Hfg. now right.
Qed.

Lemma zip_with_first {A B : Type} (l : list A) (k : list B) :
  length l = length k -> zip_with (fun a _ => a) l k = l.
Proof.
  revert k. induction l as [| a l IH]; intros [| b k] Hlen; try discriminate;
    [ reflexivity | ]. cbn. f_equal. apply IH. now injection Hlen.
Qed.

(** Two passes over the rows, by head and by tail, as one pass. *)
Lemma zip_with_heads_tails {A C : Type} (P : A -> option string -> A)
    (G : A -> list string -> C) (acc : list A) (rows : list (list string)) :
  zip_with G (zip_with P acc (map (@hd_error string) rows)) (map (@tl string) rows) =
  zip_with (fun a row => G (P a (hd_error row)) (tl row)) acc rows.
Proof.
  revert acc. induction rows as [| row rows IH]; intros [| a acc]; try reflexivity.
  cbn. f_equal. apply IH.
Qed.

Lemma zip_with_heads_heads {A C : Type} (P : A -> option string -> A)
    (G : A -> option string -> C) (acc : list A) (rows : list (list string)) :
  zip_with G (zip_with P acc (map (@hd_error string) rows)) (map (@hd_error string) rows) =
  zip_with (fun a row => G (P a (hd_error row)) (hd_error row)) acc rows.
Proof.
  revert acc. induction rows as [| row rows IH]; intros [| a acc]; try reflexivity.
  cbn. f_equal. apply IH.
Qed.

Lemma heads_all_undefined (rows : list (list string)) :
  Forall (fun row => length row = 0) rows ->
  forallb isUndefined (map (@hd_error string) rows) = true.
Proof.
  induction 1 as [| row rows Hrow _ IH]; [ reflexivity | ].
  destruct row; [ exact IH | discriminate ].
Qed.

Lemma heads_some_defined (n : nat) (rows : list (list string)) :
  rows <> [] -> Forall (fun row => length row = S n) rows ->
  forallb isUndefined (map (@hd_error string) rows) = false.
Proof.
  intros Hne Hrect. destruct Hrect as [| row rows Hrow _]; [ congruence | ].
  destruct row; [ discriminate | reflexivity ].
Qed.

Lemma tails_rectangular (n : nat) (rows : list (list string)) :
  Forall (fun row => length row = S n) rows ->
  Forall (fun row => length row = n) (map (@tl string) rows).
Proof.
  induction 1 as [| row rows Hrow _ IH]; [ constructor | ].
  cbn. constructor; [ | exact IH ]. destruct row; [ discriminate | ].
  cbn in *. lia.
Qed.

(** The loop computes the closed form, whatever fuel beyond the number of
    columns it is given. *)
Lemma tableColumns_rendered (n fuel : nat) (rows : list (list string))
    (acc : list string) (total : nat) :
  n < fuel ->
  Forall (fun row => length row = n) rows ->
  length acc = length rows ->
  tableColumns fillToWidth fuel rows acc total =
  zip_with (fun a row =>
              a +:+ renderRow (firstn (fst (printed total (columnWidths n rows)))
                                      (columnWidths n rows)) row
                +:+ ellipsis (snd (printed total (columnWidths n rows))))
           acc rows.
Proof.
  revert fuel rows acc total.
  induction n as [| n IH]; intros fuel rows acc total Hfuel Hrect Hlen;
    (destruct fuel as [| fuel]; [ lia | ]); cbn [tableColumns columnWidths].
  - rewrite heads_all_undefined by exact Hrect. cbn.
    rewrite (zip_with_ext_in _ (fun a _ => a)).
    + symmetry. now apply zip_with_first.
    + intros a row _. cbn. unfold ellipsis.
      destruct row; cbn; now rewrite ?append_nil_r.
  - destruct rows as [| row0 rows0] eqn:Hrows.
    { destruct acc; [ reflexivity | discriminate ]. }
    rewrite <- Hrows in *.
    assert (Hne : rows <> []) by (rewrite Hrows; discriminate).
    rewrite (heads_some_defined n rows Hne Hrect).
    set (w := list_max (map cellLength (map (@hd_error string) rows)) + 1).
    cbn [printed].
    destruct (fillToWidth <=? total + w)%nat eqn:Hfill.
    + rewrite zip_with_heads_heads. cbn [fst snd firstn ellipsis].
      apply zip_with_ext_in. intros a row Hin.
      rewrite List.Forall_forall in Hrect. specialize (Hrect row Hin).
      destruct row as [| c row]; [ discriminate | ].
      cbn [hd_error renderRow firstn].
      now rewrite append_nil_r, append_assoc.
    + rewrite IH.
      * rewrite zip_with_heads_tails. cbn [fst snd firstn].
        apply zip_with_ext_in. intros a row Hin.
        rewrite List.Forall_forall in Hrect. specialize (Hrect row Hin).
        destruct row as [| c row]; [ discriminate | ].
        cbn [hd_error tl renderRow]. now rewrite !append_assoc.
      * lia.
      * now apply tails_rectangular.
      * rewrite length_zip_with, !List.length_map. lia.
Qed.

Lemma zip_with_empty_acc (f : list string -> string) (rows : list (list string)) :
  zip_with (fun a row => a +:+ f row) (map (fun _ => "") rows) rows = map f rows.
Proof. induction rows as [| row rows IH]; cbn; [ reflexivity | now rewrite IH ]. Qed.

(** [generatePrettyTable] on rows of [n] cells each. *)
Lemma generatePrettyTable_rendered (numberToString : Z -> string) (n : nat)
    (rows : list (list Cell)) :
  Forall (fun row => length row = n) rows ->
  generatePrettyTable fillToWidth numberToString rows =
  String.concat nl (renderTable n (map (map (cellText numberToString)) rows)).
Proof.
  intros Hrect. unfold generatePrettyTable, renderTable. f_equal.
  set (iters := map (map (cellText numberToString)) rows).
  assert (Hrect' : Forall (fun row => length row = n) iters).
  { subst iters. rewrite List.Forall_forall in *. intros row Hin.
    apply List.in_map_iff in Hin as (cells & <- & Hin).
    rewrite List.length_map. now apply Hrect. }
  assert (Hmax : list_max (map (@length Cell) rows) <= n).
  { apply List.list_max_le. rewrite List.Forall_forall in *. intros k Hin.
    apply List.in_map_iff in Hin as (cells & <- & Hin). rewrite (Hrect _ Hin). lia. }
  destruct (Nat.eq_dec (list_max (map (@length Cell) rows)) n) as [Heq | Hneq].
  - rewrite (tableColumns_rendered n); [ | lia | exact Hrect' | ].
    + replace (map (fun _ : list Cell => "") rows)
        with (map (fun _ : list string => "") iters)
        by (subst iters; now rewrite List.map_map).
      apply (zip_with_empty_acc
               (fun row => renderRow _ row +:+ ellipsis _)).
    + subst iters. now rewrite !List.length_map.
  - (* no row at all *)
    assert (rows = []) as ->.
    { destruct rows as [| row rows']; [ reflexivity | exfalso ].
      apply Hneq. inversion Hrect as [| ? ? Hrow Hrest]; subst.
      cbn [map list_max fold_right]. apply Nat.le_antisymm; [ exact Hmax | lia ]. }
    reflexivity.
Qed.




End Rendering.

(** *** What [checkElementsEqual] reports, in closed form *)




(** The rows of the table for the indices [start, start + count): the
    actual values, a mark under each value that differs, and the expected
    values. *)
Definition diffRows (actual expected : TypedArray) (start count : nat)
    : list (list string) :=
  let bytes := BYTES_PER_ELEMENT (constructor actual) in
  let indices := seq start count in
  [ "actual ==" :: "0x:" ::
      map (fun j => intToPaddedHex (at_ actual j) bytes) indices;
    "failed ->" :: "" ::
      map (fun j => if (at_ actual j =? at_ expected j)%Z then "" else "xx") indices;
    "expected ==" :: "" ::
      map (fun j => intToPaddedHex (at_ expected j) bytes) indices ].

(** *** Helper lemmas *)





Lemma list_max_ge (l : list nat) (j : nat) : In j l -> j <= list_max l.
Proof.
  intros Hin. pose proof (proj1 (List.list_max_le l (list_max l)) (Nat.le_refl _)) as H.
  rewrite List.Forall_forall in H. now apply H.
Qed.










(** *** Claim *)


End CheckContents.

(** ** The framework on concrete inputs *)

Module Concrete.

Import Query.

(** Modelled from the spec: test parameters are a "mapping from string key to
    a scalar/array/object value"; here the values are already rendered as
    text. *)
Definition TestParams : Type := list (string * string).

Definition lookupParam (key : string) (p : TestParams) : option string :=
  option_map snd (List.find (fun kv => String.eqb (fst kv) key) p).

Definition hasPair (p : TestParams) (kv : string * string) : bool :=
  match lookupParam (fst kv) p with
  | Some v => String.eqb v (snd kv)
  | None => false
  end.

(** Modelled from the spec: "Merging two parameter records (case + subcase)
    fails if they share a key with different values". *)
Definition mergeParams (a b : TestParams) : Completion TestParams :=
  if existsb (fun kv => match lookupParam (fst kv) b with
                        | Some v => negb (String.eqb v (snd kv))
                        | None => false
                        end) a
  then Throw (assertionError "Duplicate key")
  else Normal (a ++ List.filter (fun kv => negb (hasPair a kv)) b)%list.

(** Modelled from the spec: "scalars render literally". *)
Definition stringifyPublicParams (p : TestParams) : Completion string :=
  Normal (String.concat ";" (map (fun kv => fst kv +:+ "=" +:+ snd kv) p)).

(** Modelled from the spec: [compareQueries] (query/compare is not among the
    sources). "Ordering is computed by first comparing suite, then comparing
    file-part sequences as ordered prefixes (shorter is a superset only if it
    is an exact prefix of the longer, else Unordered), then test-part
    sequences identically, then case-param set containment both ways". *)
Fixpoint comparePaths (a b : list string) : Ordering :=
  match a, b with
  | [], [] => Equal
  | [], _ :: _ => StrictSuperset
  | _ :: _, [] => StrictSubset
  | x :: a, y :: b => if String.eqb x y then comparePaths a b else Unordered
  end.

Definition compareParams (a b : TestParams) : Ordering :=
  let aInB := forallb (hasPair b) a in
  let bInA := forallb (hasPair a) b in
  if aInB && bInA then Equal
  else if aInB then StrictSuperset
  else if bInA then StrictSubset
  else Unordered.

Definition compareQueries (a b : TestQuery TestParams) : Ordering :=
  if negb (String.eqb (suite a) (suite b)) then Unordered
  else
    match comparePaths (filePathParts a) (filePathParts b) with
    | Equal =>
        match comparePaths (testPathParts a) (testPathParts b) with
        | Equal => compareParams (params a) (params b)
        | ordering => ordering
        end
    | ordering => ordering
    end.

(** A recorder that compares the texts of messages as they are. *)
Definition recorder : RecorderOps Recorder.TestCaseRecorder :=
  Recorder.ops (fun s => s) (fun s => s).

(** *** A case and the declarations made about it *)

Definition mapCase : TestQuery TestParams :=
  TestQuerySingleCase "webgpu" ["api"; "buffer"] ["map"] [("mode", "read")].

(** A declaration over the whole file, one over the case itself, and one
    over a narrower set of parameters. *)
Definition wholeFile : TestQuery TestParams := mkQuery "webgpu" ["api"; "buffer"] [] [].

Definition narrower : TestQuery TestParams :=
  TestQuerySingleCase "webgpu" ["api"; "buffer"] ["map"]
    [("mode", "read"); ("size", "4")].

Definition skipNarrower : Expectations.TestQueryWithExpectation (TestQuery TestParams) :=
  Expectations.mkDecl narrower ExpSkip.

Definition skipFileFailCase
    : list (Expectations.TestQueryWithExpectation (TestQuery TestParams)) :=
  [Expectations.mkDecl wholeFile ExpSkip; Expectations.mkDecl mapCase ExpFail].

(** *** Fixtures *)

Definition returns : RunCase.Hook (Rec := Recorder.TestCaseRecorder) :=
  RunCase.mkHook (fun rec => rec) (Normal tt).

Definition throws (ex : Error) : RunCase.Hook (Rec := Recorder.TestCaseRecorder) :=
  RunCase.mkHook (fun rec => rec) (Throw ex).

Definition deviceLost : Error :=
  {| cls := PlainError; message := "device lost"; stack := Some "at init" |}.

Definition leak : Error :=
  {| cls := PlainError; message := "buffer not destroyed"; stack := Some "at finalize" |}.

Definition notSupported : Error :=
  {| cls := SkipTestCase; message := "not supported"; stack := Some "at init" |}.

Definition passing (_ : TestParams) : RunCase.FixtureBehaviour :=
  RunCase.mkFixture returns returns returns returns.

Definition failingTwice (_ : TestParams) : RunCase.FixtureBehaviour :=
  RunCase.mkFixture returns (throws deviceLost) returns (throws leak).

Definition skipping (_ : TestParams) : RunCase.FixtureBehaviour :=
  RunCase.mkFixture returns (throws notSupported) returns returns.

Definition creation : Error :=
  {| cls := PlainError; message := "Test created: map"; stack := Some "at map.spec" |}.

Definition caseOf (subcases : option (list TestParams))
    (fixture : TestParams -> RunCase.FixtureBehaviour)
    : RunCase.RunCaseSpecific (Rec := Recorder.TestCaseRecorder) (Params := TestParams) :=
  RunCase.mkRunCase ["map"] [("mode", "read")] subcases fixture creation.

Definition threeSubcases : list TestParams :=
  [[("size", "4")]; [("size", "8")]; [("size", "16")]].

Definition freshWorld : RunCase.World (Rec := Recorder.TestCaseRecorder) (Params := TestParams) :=
  (Recorder.newRecorder, []).

(** *** A test group *)

(** Modelled from the spec: percent-decoding, restricted to the names used
    below, which have no percent escape and decode to themselves. *)
Definition decodeURIComponent (s : string) : Completion string := Normal s.

(** Modelled from the spec: the restricted character class of a path segment,
    taken as a non-empty run of letters, digits and underscores. *)
Definition validQueryPart (p : string) : bool :=
  negb (String.eqb p "") &&
  forallb (fun c => (Ascii.eqb c "_" ||
                     ((48 <=? nat_of_ascii c) && (nat_of_ascii c <=? 57)) ||
                     ((65 <=? nat_of_ascii c) && (nat_of_ascii c <=? 90)) ||
                     ((97 <=? nat_of_ascii c) && (nat_of_ascii c <=? 122)))%nat)
          (list_ascii_of_string p).

(** A builder with a parameterization of two cases and no body function. *)
Definition withoutFn : TestGroups.TestBuilder unit unit TestParams :=
  TestGroups.mkTestBuilder unit unit TestParams
    ["map"] None creation tt None
    (Some [([("mode", "read")], None); ([("mode", "write")], None)]).

(** *** The claims on these inputs *)

Lemma passing_is_quiet : RecordedRun.quietFixture passing.
Proof. intros p. repeat split. Qed.


(** The declaration over the narrower parameters stands in the
    [StrictSubset] relation to the case, which is not [Unordered]; yet the
    loop passes over it: alone, it leaves the expected status at 'pass'. *)
Lemma narrower_declaration_is_passed_over :
  compareQueries (Expectations.query skipNarrower) mapCase = StrictSubset /\
  Expectations.getExpectedStatus (TestQuery TestParams) compareQueries
    [skipNarrower] mapCase = Normal ExpPass /\
  ~ (Expectations.applicable (TestQuery TestParams) compareQueries skipNarrower mapCase <->
     compareQueries (Expectations.query skipNarrower) mapCase <> Unordered).
Proof.
  split; [ reflexivity | ]. split; [ reflexivity | ].
  intros [_ H].
  assert (Happ : Expectations.applicable (TestQuery TestParams) compareQueries
                   skipNarrower mapCase) by (apply H; discriminate).
  apply Expectations.applicable_accumulates in Happ. discriminate Happ.
Qed.


(** [init()] and [finalize()] both throw: [finalize()] still ran once, and its
    exception reached [rec.threw]. *)
Lemma finalize_runs_exactly_once_witness :
  let result := RunCase.runTest (recorder := recorder) (caseOf None failingTwice)
                  [("mode", "read")] false ExpPass freshWorld in
  RunCase.finalizeCalls (RunCase.traceOf result) = 1 /\
  In (RunCase.RecThrew leak) (RunCase.traceOf result).
Proof.
  destruct (RunCase.finalize_runs_exactly_once (recorder := recorder)
              (caseOf None failingTwice) [("mode", "read")] false ExpPass freshWorld
              (RecordedRun.recorder_endSubCase_raises (fun s => s) (fun s => s))
              ltac:(discriminate) eq_refl) as [Hcount Hthrown].
  split; [ exact Hcount | exact (Hthrown leak eq_refl) ].
Defined.

(** A subcase expected to skip: the skip is rethrown and no hook ran. *)
Lemma skip_expectation_runs_no_hook_witness :
  let result := RunCase.runTest (recorder := recorder) (caseOf None failingTwice)
                  [("mode", "read")] true ExpSkip freshWorld in
  List.filter RunCase.isLifecycleCall (RunCase.traceOf result) = [] /\
  RunCase.completionOf result =
    Throw (RunCase.newSkipTestCase "Skipped by expectations").
Proof.
  destruct (RunCase.skip_expectation_runs_no_hook (recorder := recorder)
              (caseOf None failingTwice) [("mode", "read")] true freshWorld
              (RecordedRun.recorder_endSubCase_raises (fun s => s) (fun s => s)))
    as (Hcalls & _ & Hskip & _).
  split; [ exact Hcalls | exact Hskip ].
Defined.

(** A case without subcases that is expected to fail and passes. *)
Lemma unexpected_pass_is_a_warning_witness :
  RecordedRun.passedWithWarning (fun s => s) (fun s => s) (caseOf None passing)
    (RunCase.run (recorder := recorder) mergeParams stringifyPublicParams
       compareQueries (caseOf None passing) mapCase
       [Expectations.mkDecl mapCase ExpFail] freshWorld).
Proof.
  destruct (RecordedRun.unexpected_pass_is_a_warning (fun s => s) (fun s => s)
              mergeParams stringifyPublicParams compareQueries
              (caseOf None passing) mapCase [Expectations.mkDecl mapCase ExpFail]
              freshWorld passing_is_quiet eq_refl) as (_ & Hcase & _).
  exact (proj1 (Hcase eq_refl eq_refl eq_refl)).
Defined.


(** Three subcases, one of which fails: the status is 'fail'. *)
Example one_failing_subcase_fails_the_case :
  Recorder.status
    (RunCase.recOf
       (RunCase.run (recorder := recorder) mergeParams stringifyPublicParams
          compareQueries
          (caseOf (Some threeSubcases)
             (fun p => if String.eqb (default "" (lookupParam "size" p)) "8"
                       then failingTwice p else passing p))
          mapCase [] freshWorld)) = Some Recorder.StatusFail.
Proof. reflexivity. Qed.


(** A builder with a parameterization and without [.fn()]: [validate()]
    fails although no two entries have the same stringification. *)
Lemma validate_fails_without_duplicates :
  ~ (TestGroups.fails
       (TestGroups.validate unit unit TestParams mergeParams stringifyPublicParams
          stringifyPublicParams [] withoutFn) <->
     TestGroups.hasDuplicateKeys TestParams mergeParams stringifyPublicParams
       stringifyPublicParams
       (TestGroups.expand TestParams []
          [([("mode", "read")], None); ([("mode", "write")], None)])).
Proof.
  intros [H _].
  destruct H as (i & j & e1 & e2 & k & Hne & Hi & Hj & Hk1 & Hk2).
  { eexists. reflexivity. }
  assert (Hnone : forall n, nth_error (@nil (TestParams * TestParams)) n = None)
    by (intros [| n]; reflexivity).
  destruct i as [| [| i]], j as [| [| j]]; cbn in Hi, Hj;
    rewrite ?Hnone in Hi, Hj; try congruence;
    injection Hi as <-; injection Hj as <-;
    vm_compute in Hk1, Hk2; congruence.
Qed.

(** The name of a new test with two path parts is accepted. *)
Example test_appends_a_builder :
  let group := TestGroups.mkTestGroup unit unit TestParams tt ∅ [] in
  let result := TestGroups.test unit unit TestParams decodeURIComponent
                  validQueryPart "/^[a-zA-Z0-9_]+$/" "map,read" group in
  map (TestGroups.testPath unit unit TestParams) (TestGroups.tests _ _ _ (fst result))
    = [["map"; "read"]] /\
  TestGroups.fails
    (TestGroups.test unit unit TestParams decodeURIComponent validQueryPart
       "/^[a-zA-Z0-9_]+$/" "map,read" (fst result)).
Proof. split; [ reflexivity | ]. eexists. reflexivity. Qed.


(** [[1, 2, 3]] against [[1, 2, 4]]: the message names index 2 and the table
    starts at index 1. *)
Example checkElementsEqual_reports_index_2 :
  CheckContents.checkElementsEqual
    (CheckContents.mkTypedArray CheckContents.Uint8Array [1; 2; 3]%Z)
    (CheckContents.mkTypedArray CheckContents.Uint8Array [1; 2; 4]%Z) =
  Normal (Some (CheckContents.ErrorWithExtra
    ("Array had unexpected contents at indices 2 through 2." +:+ nl +:+
     " Starting at index 1:" +:+ nl +:+
     "   actual == 0x: 02 03" +:+ nl +:+
     "   failed ->        xx" +:+ nl +:+
     " expected ==     02 04"))).
Proof. vm_compute. reflexivity. Qed.

(** Forty differing 32-bit elements: the table is cut off after the column
    with which its width passes 120, and every line ends with an ellipsis. *)
Example checkElementsEqual_truncates :
  let widths := CheckContents.columnWidths 42
                  (CheckContents.diffRows
                     (CheckContents.mkTypedArray CheckContents.Int32Array
                        (map Z.of_nat (seq 1 40)))
                     (CheckContents.mkTypedArray CheckContents.Int32Array (repeat 0%Z 40))
                     0 40) in
  CheckContents.printed 120 0 widths = (14, true) /\
  list_sum (firstn 13 widths) = 115 /\ list_sum (firstn 14 widths) = 124.
Proof. vm_compute. repeat split. Qed.

End Concrete.

(** ** Texts: [split], [join] and lengths *)

Module Text.

Import TestGroups.

(** [s.split(sep)] is never empty. *)
Lemma split_nonempty (sep : ascii) (s : string) : split sep s <> [].
Proof.
  destruct s as [| c s]; cbn [split]; [ discriminate | ].
  destruct (Ascii.eqb c sep); [ discriminate | ].
  destruct (split sep s); discriminate.
Qed.

(** [s.split(sep).join(sep)] is [s]. *)
Lemma concat_split (sep : ascii) (s : string) :
  String.concat (String sep "") (split sep s) = s.
Proof.
  induction s as [| c s IH]; [ reflexivity | ].
  cbn [split].
  destruct (Ascii.eqb c sep) eqn:Hc.
  - apply Ascii.eqb_eq in Hc. subst c.
    pose proof (split_nonempty sep s) as Hne.
    destruct (split sep s) as [| part parts]; [ contradiction | ].
    rewrite <- IH. reflexivity.
  - pose proof (split_nonempty sep s) as Hne.
    destruct (split sep s) as [| part parts]; [ contradiction | ].
    rewrite <- IH. destruct parts; reflexivity.
Qed.

(** Splitting a text that starts with characters other than the separator. *)
Lemma split_prefix (sep : ascii) (p s : string) :
  Forall (fun c => Ascii.eqb c sep = false) (list_ascii_of_string p) ->
  split sep (p +:+ s) =
  match split sep s with
  | [] => [p]
  | first :: rest => (p +:+ first) :: rest
  end.
Proof.
  induction p as [| c p IH]; intros Hp.
  - change ("" +:+ s) with s.
    pose proof (split_nonempty sep s) as Hne.
    destruct (split sep s); [ contradiction | reflexivity ].
  - cbn [list_ascii_of_string] in Hp. inversion Hp as [| ? ? Hc Hrest]; subst.
    change (String c p +:+ s) with (String c (p +:+ s)).
    cbn [split]. rewrite Hc, (IH Hrest).
    destruct (split sep s); reflexivity.
Qed.

Lemma length_append (s t : string) :
  String.length (s +:+ t) = String.length s + String.length t.
Proof.
  induction s as [| c s IH]; [ reflexivity | ].
  change (S (String.length (s +:+ t)) = S (String.length s + String.length t)).
  now rewrite IH.
Qed.

End Text.

(** ** More on expectation matching *)

Module ExpectationFacts.

Import Expectations.

Section GetExpectedStatus.

Variable TestQuery : Type.
Variable compareQueries : TestQuery -> TestQuery -> Ordering.

Abbreviation Declaration := (TestQueryWithExpectation TestQuery).
Abbreviation getExpectedStatus :=
  (Expectations.getExpectedStatus TestQuery compareQueries).
Abbreviation getExpectedStatus_from :=
  (Expectations.getExpectedStatus_from TestQuery compareQueries).
Abbreviation applicable := (Expectations.applicable TestQuery compareQueries).
Abbreviation matching := (Expectations.matching TestQuery compareQueries).


(** *** Helper lemmas *)


Lemma existsb_matching_perm (p : Declaration -> bool)
    (expectations expectations' : list Declaration) (self : TestQuery) :
  Permutation expectations expectations' ->
  existsb p (matching expectations self) = existsb p (matching expectations' self).
Proof.
  intros Hperm. apply Bool.eq_iff_eq_true. rewrite !existsb_exists.
  unfold Expectations.matching.
  split; intros (d & Hin & Hd); exists d; (split; [ | exact Hd ]);
    apply List.filter_In in Hin as (Hin & Hacc); apply List.filter_In;
    (split; [ | exact Hacc ]).
  - now apply (Permutation_in _ Hperm).
  - now apply (Permutation_in _ (Permutation_sym Hperm)).
Qed.

(** *** Properties *)


(** X2. When the applicable declarations carry 'skip' or 'fail', the
    expected status does not depend on the order of the declarations. *)
Theorem getExpectedStatus_any_order (expectations expectations' : list Declaration)
    (self : TestQuery)
    (Hdecl : forall d, In d expectations -> applicable d self ->
                       expectation d <> ExpPass)
    (Hperm : Permutation expectations expectations') :
  getExpectedStatus expectations' self = getExpectedStatus expectations self.
Proof.
  unfold Expectations.getExpectedStatus.
  rewrite !getExpectedStatus_from_precedence.
  - now rewrite !(existsb_matching_perm _ expectations expectations' self Hperm).
  - intros d Hin Hacc. apply Hdecl; [ exact Hin | now apply applicable_accumulates ].
  - intros d Hin Hacc. apply Hdecl.
    + now apply (Permutation_in _ (Permutation_sym Hperm)).
    + now apply applicable_accumulates.
Qed.

End GetExpectedStatus.

End ExpectationFacts.

(** ** What [runTest] and [run] do with any recorder *)

Module RunCaseFacts.

Import Query RunCase.

Section AnyRecorder.

Context {Rec : Type} {recorder : RecorderOps Rec} {Params : Type}.

Variable mergeParams : Params -> Params -> Completion Params.
Variable stringifyPublicParams : Params -> Completion string.
Variable compareQueries : TestQuery Params -> TestQuery Params -> Ordering.

Abbreviation Case := (@RunCaseSpecific Rec Params).
Abbreviation Fixture := (@FixtureBehaviour Rec).
Abbreviation Calls := (list (@Event Params)).
Abbreviation Result A := (@World Rec Params * Completion A)%type.

(** The calls that a statement started in [w] has added to the trace. *)
Definition newEvents {A : Type} (w : @World Rec Params) (r : Result A) : Calls :=
  skipn (length (snd w)) (traceOf r).

(** The lifecycle hooks that are invoked on a fixture, in order: nothing
    after a constructor that throws; [finalize()] but not the test body after
    an [init()] that throws. *)
Definition lifecycleCalls (inst : Fixture) (p : Params) : Calls :=
  CallConstructor p ::
  match outcome (construct inst) with
  | Throw _ => []
  | Normal _ =>
      CallInit ::
      match outcome (init inst) with
      | Throw _ => [CallFinalize]
      | Normal _ => [CallFn; CallFinalize]
      end
  end.

Definition hookCalls (this : Case) (p : Params) (expectedStatus : Expectation)
    : Calls :=
  match expectedStatus with
  | ExpSkip => []
  | _ => lifecycleCalls (fixture this p) p
  end.

(** What the outer [try] block of [runTest] ends with. *)
Definition attempt (this : Case) (p : Params) (expectedStatus : Expectation)
    : Completion unit :=
  match expectedStatus with
  | ExpSkip => Throw (newSkipTestCase "Skipped by expectations")
  | _ => lifecycleOutcome (fixture this p)
  end.

(** The [catch] clause of [runTest]: the exception is rethrown or handed to
    [rec.threw]. *)
Definition rethrown (throwSkip : bool) (c : Completion unit) : Completion unit :=
  match c with
  | Throw ex => if throwSkip && isSkipTestCase ex then Throw ex else Normal tt
  | Normal _ => Normal tt
  end.

Definition threwCalls (throwSkip : bool) (c : Completion unit) : Calls :=
  match c with
  | Throw ex => if throwSkip && isSkipTestCase ex then [] else [RecThrew ex]
  | Normal _ => []
  end.


Definition isRecWarn (e : @Event Params) : bool :=
  match e with RecWarn _ => true | _ => false end.

Definition isSubCaseBracket (e : @Event Params) : bool :=
  match e with RecBeginSubCase | RecEndSubCase _ => true | _ => false end.

(** Calls that only [run] makes, once per case. *)
Definition isCaseLevel (e : @Event Params) : bool :=
  match e with RecStart | RecFinish | RecSkipped _ => true | _ => false end.

(** The warning that the inner [catch] of [runTest] files. *)
Definition isUnexpectedPassWarning (this : Case) (ex : Error) : Prop :=
  isUnexpectedPassError ex = true /\
  message ex = "Testcase passed unexpectedly." /\
  stack ex = stack (testCreationStack this).

(** The first exception in a list of completions. *)
Fixpoint firstThrow {A : Type} (cs : list (Completion A)) : Completion unit :=
  match cs with
  | [] => Normal tt
  | Normal _ :: cs => firstThrow cs
  | Throw ex :: _ => Throw ex
  end.



Definition allSkipped : Error := newSkipTestCase "all subcases were skipped".

(** What escapes from [run]. *)
Definition escapes (this : Case) (selfQuery : TestQuery Params)
    (expectations : list (Expectations.TestQueryWithExpectation (TestQuery Params)))
    : Completion unit :=
  match subcases this with
  | Some subcases => firstThrow (map stringifyPublicParams subcases)
  | None =>
      match Expectations.getExpectedStatus (TestQuery Params) compareQueries
              expectations selfQuery with
      | Throw ex => Throw ex
      | Normal _ => Normal tt
      end
  end.

(** The calls that open and close sub-cases expected to end as [es]. *)
Definition paired (es : list Expectation) : Calls :=
  flat_map (fun e => [RecBeginSubCase; RecEndSubCase e]) es.


(** *** Helper lemmas *)

Lemma newEvents_extends {A : Type} (w : @World Rec Params) (r : Result A) evs :
  traceOf r = (snd w ++ evs)%list -> newEvents w r = evs.
Proof.
  intros H. unfold newEvents. rewrite H.
  rewrite List.skipn_app, List.skipn_all, Nat.sub_diag. reflexivity.
Qed.

Ltac run_unfold :=
  unfold runTest, tryFinally, tryCatch, bind, ret, throw, assert, lift,
    recCall, hookCall, endSubCaseCall, recOf, traceOf, completionOf.

Ltac run_cases :=
  run_unfold; cbn [fst snd];
  repeat match goal with
         | |- context [outcome ?h] => destruct (outcome h) as [[] | ?] eqn:?
         | |- context [endSubCase ?e ?r] =>
             destruct (endSubCase e r) as [? [[] | ?]] eqn:?
         | |- context [isUnexpectedPassError ?x] =>
             destruct (isUnexpectedPassError x) eqn:?
         | |- context [isSkipTestCase ?x] => destruct (isSkipTestCase x) eqn:?
         | |- context [(?b && _)%bool] => is_var b; destruct b
         | _ => progress cbn [fst snd andb]
         | _ => progress run_unfold
         end.

(** The calls of one [runTest], in closed form up to what the recorder does
    in [endSubCase]. *)
Lemma runTest_trace (this : Case) (p : Params) (throwSkip : bool)
    (expectedStatus : Expectation) (w : @World Rec Params) :
  exists tail : Calls,
    traceOf (runTest this p throwSkip expectedStatus w) =
      (snd w ++ RecBeginSubCase :: hookCalls this p expectedStatus ++
       threwCalls throwSkip (attempt this p expectedStatus) ++
       RecEndSubCase expectedStatus :: tail)%list /\
    (tail = [] \/ exists ex, tail = [RecWarn ex] /\ isUnexpectedPassWarning this ex).
Proof.
  unfold hookCalls, attempt, lifecycleOutcome, lifecycleCalls, threwCalls.
  destruct expectedStatus; run_cases;
    repeat rewrite <- List.app_assoc; cbn [app];
    try match goal with
        | H : isSkipTestCase (newSkipTestCase _) = false |- _ =>
            cbv in H; discriminate H
        end;
    eexists; (split; [ reflexivity | ]);
    first [ now left
          | right; eexists; split; [ reflexivity | ];
            unfold isUnexpectedPassWarning; cbn; auto ].
Qed.


(** How [runTest] completes with a recorder whose [endSubCase] raises nothing
    but [UnexpectedPassError]. *)
Lemma runTest_completion (this : Case) (p : Params) (throwSkip : bool)
    (expectedStatus : Expectation) (w : @World Rec Params) :
  endSubCaseRaisesOnlyUnexpectedPass ->
  completionOf (runTest this p throwSkip expectedStatus w) =
  rethrown throwSkip (attempt this p expectedStatus).
Proof.
  intros Hrec.
  unfold attempt, lifecycleOutcome, rethrown.
  destruct expectedStatus; run_cases;
    try match goal with
        | H : isSkipTestCase (newSkipTestCase _) = false |- _ =>
            cbv in H; discriminate H
        end;
    try match goal with
        | H : endSubCase ?e ?r = (_, Throw ?x) |- _ =>
            pose proof (Hrec e r x) as Hx; rewrite H in Hx;
            specialize (Hx eq_refl); congruence
        end;
    try reflexivity; try congruence.
Qed.

Lemma filter_lifecycleCalls (inst : Fixture) (p : Params) :
  List.filter isLifecycleCall (lifecycleCalls inst p) = lifecycleCalls inst p.
Proof.
  unfold lifecycleCalls.
  destruct (outcome (construct inst)); [ | reflexivity ].
  destruct (outcome (init inst)); reflexivity.
Qed.

Lemma filter_hookCalls (f : @Event Params -> bool) (this : Case) (p : Params)
    (e : Expectation) :
  (forall ev, isLifecycleCall ev = true -> f ev = false) ->
  List.filter f (hookCalls this p e) = [].
Proof.
  intros Hf. unfold hookCalls, lifecycleCalls.
  destruct e; [ | reflexivity | ];
    destruct (outcome (construct (fixture this p)));
    destruct (outcome (init (fixture this p)));
    cbn [List.filter]; repeat rewrite Hf by reflexivity; reflexivity.
Qed.

Lemma filter_threwCalls (f : @Event Params -> bool) (throwSkip : bool)
    (c : Completion unit) :
  (forall ex, f (RecThrew ex) = false) ->
  List.filter f (threwCalls throwSkip c) = [].
Proof.
  intros Hf. unfold threwCalls.
  destruct c as [| ex]; [ reflexivity | ].
  destruct (throwSkip && isSkipTestCase ex); [ reflexivity | ].
  cbn [List.filter]. now rewrite Hf.
Qed.

(** The calls of one [runTest]: one sub-case is opened and closed, and no
    call for the whole case is made. *)
Lemma runTest_events (this : Case) (p : Params) (throwSkip : bool)
    (e : Expectation) (w : @World Rec Params) :
  exists evs : Calls,
    traceOf (runTest this p throwSkip e w) = (snd w ++ evs)%list /\
    List.filter isCaseLevel evs = [] /\
    List.filter isSubCaseBracket evs = paired [e].
Proof.
  destruct (runTest_trace this p throwSkip e w) as (tail & Htrace & Htail).
  eexists. split; [ exact Htrace | ].
  cbn [List.filter isCaseLevel isSubCaseBracket].
  rewrite !List.filter_app. cbn [List.filter isCaseLevel isSubCaseBracket].
  rewrite !filter_threwCalls by reflexivity.
  rewrite !filter_hookCalls by (intros ev; destruct ev; cbn; congruence).
  destruct Htail as [-> | (ex & -> & _)]; split; reflexivity.
Qed.

(** The body of the loop of [run] throws nothing, whatever the recorder and
    the hooks do. *)
Lemma runSubcase_events (this : Case) (selfQuery : TestQuery Params)
    (getExpectedStatus : TestQuery Params -> Completion Expectation)
    (subParams : Params) (skipCount : nat) (w : @World Rec Params) :
  let r := runSubcase mergeParams this selfQuery getExpectedStatus subParams
             skipCount w in
  exists (evs : Calls) (n : nat) (es : list Expectation),
    traceOf r = (snd w ++ evs)%list /\
    completionOf r = Normal n /\
    List.filter isCaseLevel evs = [] /\
    List.filter isSubCaseBracket evs = paired es /\
    length es <= 1.
Proof.
  cbv zeta. unfold runSubcase, tryCatch, bind, lift.
  destruct (mergeParams (params this) subParams) as [p | ex].
  2: { destruct (isSkipTestCase ex); unfold recCall, ret, traceOf, completionOf;
         cbn [fst snd]; do 2 eexists; exists []; repeat split; auto. }
  match goal with
  | |- context [getExpectedStatus ?q] => destruct (getExpectedStatus q) as [e | ex]
  end.
  2: { destruct (isSkipTestCase ex); unfold recCall, ret, traceOf, completionOf;
         cbn [fst snd]; do 2 eexists; exists []; repeat split; auto. }
  destruct (runTest_events this p true e w) as (evs & Htrace & Hcase & Hbr).
  destruct (runTest this p true e w) as [[rec tr] [[] | ex]];
    unfold traceOf in Htrace; cbn [fst snd] in Htrace; subst tr.
  - unfold ret, traceOf, completionOf; cbn [fst snd].
    exists evs, skipCount, [e]. repeat split; auto.
  - destruct (isSkipTestCase ex); unfold recCall, ret, traceOf, completionOf;
      cbn [fst snd]; rewrite <- List.app_assoc;
      do 2 eexists; exists [e]; (split; [ reflexivity | ]);
      rewrite !List.filter_app, Hcase, Hbr; repeat split; auto.
Qed.


Lemma paired_app (es fs : list Expectation) :
  paired (es ++ fs) = (paired es ++ paired fs)%list.
Proof. unfold paired. apply List.flat_map_app. Qed.

(** One turn of the loop of [run]. *)
Lemma runSubcases_cons (this : Case) (selfQuery : TestQuery Params)
    (getExpectedStatus : TestQuery Params -> Completion Expectation)
    (subParams : Params) (rest : list Params) (totalCount skipCount : nat)
    (w : @World Rec Params) :
  runSubcases mergeParams stringifyPublicParams this selfQuery getExpectedStatus
    (subParams :: rest) totalCount skipCount w =
  match stringifyPublicParams subParams with
  | Throw ex => (w, Throw ex)
  | Normal s =>
      let ex := newError ("subcase: " +:+ s) in
      match runSubcase mergeParams this selfQuery getExpectedStatus subParams
              skipCount (info ex (fst w), (snd w ++ [RecInfo ex])%list) with
      | (w', Normal skipCount) =>
          runSubcases mergeParams stringifyPublicParams this selfQuery
            getExpectedStatus rest (S totalCount) skipCount w'
      | (w', Throw ex) => (w', Throw ex)
      end
  end.
Proof.
  cbn [runSubcases]. unfold bind, lift, recCall.
  destruct (stringifyPublicParams subParams); reflexivity.
Qed.

(** [run], statement by statement. *)
Lemma run_eq (this : Case) (selfQuery : TestQuery Params)
    (expectations : list (Expectations.TestQueryWithExpectation (TestQuery Params)))
    (w : @World Rec Params) :
  let getExpectedStatus :=
    Expectations.getExpectedStatus (TestQuery Params) compareQueries expectations in
  let finished (w : @World Rec Params) : Result unit :=
    ((finish (fst w), (snd w ++ [RecFinish])%list), Normal tt) in
  let w1 : @World Rec Params := (start (fst w), (snd w ++ [RecStart])%list) in
  run mergeParams stringifyPublicParams compareQueries this selfQuery expectations w =
  match subcases this with
  | Some subParams =>
      match runSubcases mergeParams stringifyPublicParams this selfQuery
              getExpectedStatus subParams 0 0 w1 with
      | (w2, Normal counts) =>
          finished (if (snd counts =? fst counts)%nat
                    then (skipped allSkipped (fst w2),
                          (snd w2 ++ [RecSkipped allSkipped])%list)
                    else w2)
      | (w2, Throw ex) => (w2, Throw ex)
      end
  | None =>
      match getExpectedStatus selfQuery with
      | Throw ex => (w1, Throw ex)
      | Normal e =>
          match runTest this (params this) false e w1 with
          | (w2, Normal _) => finished w2
          | (w2, Throw ex) => (w2, Throw ex)
          end
      end
  end.
Proof.
  cbv zeta. unfold run, bind, lift, recCall, ret. cbn [fst snd].
  destruct (subcases this) as [l |].
  - destruct (runSubcases _ _ _ _ _ _ _ _ _) as [w2 [counts | ex]]; [ | reflexivity ].
    destruct (snd counts =? fst counts)%nat; reflexivity.
  - destruct (Expectations.getExpectedStatus _ _ _ _); [ | reflexivity ].
    destruct (runTest _ _ _ _ _) as [w2 [[] | ex]]; reflexivity.
Qed.

(** The loop of [run]: it ends early only when [stringifyPublicParams]
    throws. *)
Lemma runSubcases_events (this : Case) (selfQuery : TestQuery Params)
    (getExpectedStatus : TestQuery Params -> Completion Expectation)
    (subcases : list Params) (totalCount skipCount : nat) (w : @World Rec Params) :
  let r := runSubcases mergeParams stringifyPublicParams this selfQuery
             getExpectedStatus subcases totalCount skipCount w in
  exists (evs : Calls) (es : list Expectation),
    traceOf r = (snd w ++ evs)%list /\
    List.filter isCaseLevel evs = [] /\
    List.filter isSubCaseBracket evs = paired es /\
    length es <= length subcases /\
    match firstThrow (map stringifyPublicParams subcases) with
    | Throw ex => completionOf r = Throw ex
    | Normal _ => exists n, completionOf r = Normal (totalCount + length subcases, n)
    end.
Proof.
  cbv zeta. revert totalCount skipCount w.
  induction subcases as [| subParams rest IH]; intros totalCount skipCount w.
  - exists [], []. cbn. rewrite app_nil_r, Nat.add_0_r.
    repeat split; eauto.
  - rewrite runSubcases_cons. cbn [map firstThrow].
    destruct (stringifyPublicParams subParams) as [s | ex].
    2: { exists [], []. cbn. rewrite app_nil_r. repeat split; auto; lia. }
    cbv zeta.
    match goal with
    | |- context [runSubcase _ _ _ _ _ _ ?w1] =>
        destruct (runSubcase_events this selfQuery getExpectedStatus subParams
                    skipCount w1) as (evs1 & n & es1 & Ht1 & Hc1 & Hcase1 & Hbr1 & Hlen1);
        destruct (runSubcase mergeParams this selfQuery getExpectedStatus
                    subParams skipCount w1) as [w2 c2]
    end.
    unfold traceOf, completionOf in Ht1, Hc1; cbn [fst snd] in Ht1, Hc1. subst c2.
    destruct (IH (S totalCount) n w2) as (evs2 & es2 & Ht2 & Hcase2 & Hbr2 & Hlen2 & Hc2).
    exists (RecInfo (newError ("subcase: " +:+ s)) :: evs1 ++ evs2)%list, (es1 ++ es2)%list.
    split; [ | split; [ | split; [ | split ] ] ].
    + rewrite Ht2, Ht1. now rewrite <- !List.app_assoc.
    + cbn [List.filter isCaseLevel]. now rewrite List.filter_app, Hcase1, Hcase2.
    + cbn [List.filter isSubCaseBracket].
      now rewrite List.filter_app, Hbr1, Hbr2, paired_app.
    + rewrite List.length_app. cbn [length]. lia.
    + destruct (firstThrow (map stringifyPublicParams rest)); [ | exact Hc2 ].
      destruct Hc2 as (n' & Hc2). exists n'. rewrite Hc2. cbn [length].
      do 2 f_equal. lia.
Qed.



(** *** [runTest] *)

(** X3. [runTest] invokes the lifecycle hooks in the order constructor,
    [init()], test body, [finalize()]; a constructor that throws is followed
    by no other hook, an [init()] that throws is followed by [finalize()] but
    not by the test body, and with expected status 'skip' no hook is
    invoked. *)
Theorem hooks_run_in_order (this : Case) (p : Params) (throwSkip : bool)
    (expectedStatus : Expectation) (w : @World Rec Params) :
  List.filter isLifecycleCall
    (newEvents w (runTest this p throwSkip expectedStatus w)) =
  match expectedStatus with
  | ExpSkip => []
  | _ => lifecycleCalls (fixture this p) p
  end.
Proof.
  destruct (runTest_trace this p throwSkip expectedStatus w) as (tail & Htrace & Htail).
  rewrite (newEvents_extends _ _ _ Htrace).
  cbn [List.filter isLifecycleCall].
  rewrite !List.filter_app. cbn [List.filter isLifecycleCall].
  rewrite filter_threwCalls by reflexivity.
  assert (List.filter isLifecycleCall tail = []) as ->.
  { destruct Htail as [-> | (ex & -> & _)]; reflexivity. }
  rewrite app_nil_r. unfold hookCalls.
  destruct expectedStatus; [ | reflexivity | ]; apply filter_lifecycleCalls.
Qed.


(** X25. [runTest] calls [rec.warn] at most once, as its last call, and
    with nothing but an [UnexpectedPassError] that [endSubCase] raised, its
    message set to 'Testcase passed unexpectedly.' and its stack to the
    stack of the creation of the test. *)
Theorem only_an_unexpected_pass_is_warned (this : Case) (p : Params)
    (throwSkip : bool) (expectedStatus : Expectation) (w : @World Rec Params) :
  let calls := newEvents w (runTest this p throwSkip expectedStatus w) in
  List.filter isRecWarn calls = [] \/
  exists ex : Error,
    List.filter isRecWarn calls = [RecWarn ex] /\
    List.last calls RecBeginSubCase = RecWarn ex /\
    isUnexpectedPassWarning this ex.
Proof.
  cbv zeta.
  destruct (runTest_trace this p throwSkip expectedStatus w) as (tail & Htrace & Htail).
  rewrite (newEvents_extends _ _ _ Htrace).
  cbn [List.filter isRecWarn].
  rewrite !List.filter_app. cbn [List.filter isRecWarn].
  rewrite filter_threwCalls by reflexivity.
  rewrite (filter_hookCalls isRecWarn)
    by (intros ev; destruct ev; cbn; congruence).
  cbn [app].
  destruct Htail as [-> | (ex & -> & Hex)]; [ now left | right ].
  exists ex. split; [ reflexivity | ]. split; [ | exact Hex ].
  match goal with
  | |- List.last (?a :: ?h ++ ?t ++ [?e; ?x])%list _ = _ =>
      replace (a :: h ++ t ++ [e; x])%list with ((a :: h ++ t ++ [e]) ++ [x])%list
        by (cbn [app]; now rewrite <- !List.app_assoc)
  end.
  apply List.last_last.
Qed.

(** *** [run] *)

Ltac new_events :=
  erewrite newEvents_extends
    by (unfold traceOf; cbn [fst snd];
        repeat rewrite <- List.app_assoc; reflexivity).

(** X5. With a recorder whose [endSubCase] raises nothing but
    [UnexpectedPassError], an exception escapes from [run] only out of
    [stringifyPublicParams] for a subcase, or, for a case without subcases,
    out of the computation of the expected status; exceptions of
    [mergeParams], of the hooks and of the expected status of a subcase do
    not escape. [run] calls [rec.start()] first, and [rec.finish()] exactly
    when it returns normally. *)
Theorem run_escapes (this : Case) (selfQuery : TestQuery Params)
    (expectations : list (Expectations.TestQueryWithExpectation (TestQuery Params)))
    (w : @World Rec Params)
    (Hrec : endSubCaseRaisesOnlyUnexpectedPass) :
  let result := run mergeParams stringifyPublicParams compareQueries this
                  selfQuery expectations w in
  completionOf result = escapes this selfQuery expectations /\
  hd_error (newEvents w result) = Some RecStart /\
  (In RecFinish (newEvents w result) <-> completionOf result = Normal tt).
Proof.
  cbv zeta. rewrite run_eq. cbv zeta. unfold escapes.
  destruct (subcases this) as [l |].
  - match goal with
    | |- context [runSubcases _ _ _ _ ?gs _ _ _ ?w1] =>
        destruct (runSubcases_events this selfQuery gs l 0 0 w1)
          as (evs & es & Ht & Hcase & _ & _ & Hc);
        destruct (runSubcases mergeParams stringifyPublicParams this selfQuery
                    gs l 0 0 w1) as [[rec tr] c]
    end.
    unfold traceOf, completionOf in Ht, Hc; cbn [fst snd] in Ht, Hc. subst tr.
    assert (~ In RecFinish evs) as Hno.
    { intros Hin.
      assert (In RecFinish (List.filter isCaseLevel evs)) as Hin'
        by (apply List.filter_In; split; [ exact Hin | reflexivity ]).
      rewrite Hcase in Hin'. destruct Hin'. }
    destruct (firstThrow (map stringifyPublicParams l)) as [[] | ex].
    + destruct Hc as (n & ->).
      destruct (snd (0 + length l, n) =? fst (0 + length l, n))%nat;
        unfold completionOf; cbn [fst snd];
        (split; [ reflexivity | ]); new_events;
        (split; [ reflexivity | ]);
        (split; [ reflexivity | intros _ ]);
        cbn [app]; right; apply in_or_app; right; cbn; auto.
    + subst c. unfold completionOf; cbn [fst snd].
      split; [ reflexivity | ]. new_events.
      split; [ reflexivity | ].
      split; [ | discriminate ].
      cbn [app]. intros [Hin | Hin]; [ discriminate | contradiction ].
  - destruct (Expectations.getExpectedStatus (TestQuery Params) compareQueries
                expectations selfQuery) as [e | ex].
    + match goal with
      | |- context [runTest this ?p false e ?w1] =>
          pose proof (runTest_completion this p false e w1 Hrec) as Hc;
          destruct (runTest_events this p false e w1) as (evs & Ht & Hcase & _);
          destruct (runTest this p false e w1) as [[rec tr] c]
      end.
      unfold traceOf, completionOf in Ht, Hc; cbn [fst snd] in Ht, Hc. subst tr.
      assert (c = Normal tt) as ->.
      { rewrite Hc. unfold rethrown. now destruct (attempt _ _ _). }
      unfold completionOf; cbn [fst snd].
      split; [ reflexivity | ]. new_events.
      split; [ reflexivity | ].
      split; [ reflexivity | intros _ ].
      cbn [app]. right. apply in_or_app. right. cbn. auto.
    + unfold completionOf; cbn [fst snd].
      split; [ reflexivity | ]. new_events.
      split; [ reflexivity | ].
      split; [ | discriminate ].
      cbn. intros [Hin | []]. discriminate.
Qed.


(** X7. In every [run], whatever the hooks and the recorder do, sub-cases are
    opened and closed in turn: the calls of [beginSubCase] and [endSubCase]
    alternate, starting with [beginSubCase] and ending with [endSubCase], and
    there is at most one pair per subcase (one pair for a case without
    subcases, when its expected status can be computed). *)
Theorem subcases_are_bracketed (this : Case) (selfQuery : TestQuery Params)
    (expectations : list (Expectations.TestQueryWithExpectation (TestQuery Params)))
    (w : @World Rec Params) :
  let result := run mergeParams stringifyPublicParams compareQueries this
                  selfQuery expectations w in
  exists es : list Expectation,
    List.filter isSubCaseBracket (newEvents w result) = paired es /\
    length es <= match subcases this with
                 | Some subParams => length subParams
                 | None => 1
                 end.
Proof.
  cbv zeta. rewrite run_eq. cbv zeta.
  destruct (subcases this) as [l |].
  - match goal with
    | |- context [runSubcases _ _ _ _ ?gs _ _ _ ?w1] =>
        destruct (runSubcases_events this selfQuery gs l 0 0 w1)
          as (evs & es & Ht & _ & Hbr & Hlen & _);
        destruct (runSubcases mergeParams stringifyPublicParams this selfQuery
                    gs l 0 0 w1) as [[rec tr] c]
    end.
    unfold traceOf in Ht; cbn [fst snd] in Ht. subst tr.
    exists es. split; [ | exact Hlen ].
    destruct c as [counts | ex];
      [ destruct (snd counts =? fst counts)%nat | ];
      cbn [fst snd]; new_events;
      cbn [app List.filter isSubCaseBracket];
      rewrite ?List.filter_app, Hbr; cbn; now rewrite ?app_nil_r.
  - destruct (Expectations.getExpectedStatus (TestQuery Params) compareQueries
                expectations selfQuery) as [e | ex].
    + match goal with
      | |- context [runTest this ?p false e ?w1] =>
          destruct (runTest_events this p false e w1) as (evs & Ht & _ & Hbr);
          destruct (runTest this p false e w1) as [[rec tr] c]
      end.
      unfold traceOf in Ht; cbn [fst snd] in Ht. subst tr.
      exists [e]. split; [ | cbn; lia ].
      destruct c as [[] | ex]; cbn [fst snd]; new_events;
        cbn [app List.filter isSubCaseBracket];
        rewrite ?List.filter_app, Hbr; cbn; now rewrite ?app_nil_r.
    + exists []. split; [ | cbn; lia ].
      new_events. reflexivity.
Qed.

End AnyRecorder.

End RunCaseFacts.

(** ** The rest of [TestGroup] and [TestBuilder] *)

Module Builders.

Import TestGroups.

Section Builders.

Variable FixtureClass : Type.
Variable TestFn : Type.
Variable Params : Type.
Variable decodeURIComponent : string -> Completion string.
Variable validQueryPart : string -> bool.
Variable validQueryPartText : string.
Variable mergeParams : Params -> Params -> Completion Params.
Variable stringifyPublicParams : Params -> Completion string.
Variable stringifyPublicParamsUniquely : Params -> Completion string.
Variable emptyParams : Params.

(** The function [() => { throw new SkipTestCase('test unimplemented'); }]
    that [unimplemented()] attaches. *)
Variable unimplementedFn : TestFn.

(** What the lifecycle hooks of a fixture class and a test function do with
    a recorder of type [Rec]. *)
Context {Rec : Type}.
Variable behaviour :
  FixtureClass -> TestFn -> Params -> @RunCase.FixtureBehaviour Rec.

Abbreviation TestBuilder := (TestGroups.TestBuilder FixtureClass TestFn Params).
Abbreviation TestGroup := (TestGroups.TestGroup FixtureClass TestFn Params).
Abbreviation Case := (@RunCase.RunCaseSpecific Rec Params).
Abbreviation testPath := (TestGroups.testPath FixtureClass TestFn Params).
Abbreviation description := (TestGroups.description FixtureClass TestFn Params).
Abbreviation testCreationStack :=
  (TestGroups.testCreationStack FixtureClass TestFn Params).
Abbreviation fixture := (TestGroups.fixture FixtureClass TestFn Params).
Abbreviation testFn := (TestGroups.testFn FixtureClass TestFn Params).
Abbreviation testCases := (TestGroups.testCases FixtureClass TestFn Params).
Abbreviation groupFixture := (TestGroups.groupFixture FixtureClass TestFn Params).
Abbreviation seen := (TestGroups.seen FixtureClass TestFn Params).
Abbreviation tests := (TestGroups.tests FixtureClass TestFn Params).
Abbreviation mkTestBuilder := (TestGroups.mkTestBuilder FixtureClass TestFn Params).
Abbreviation mkTestGroup := (TestGroups.mkTestGroup FixtureClass TestFn Params).
Abbreviation test :=
  (TestGroups.test FixtureClass TestFn Params decodeURIComponent validQueryPart
     validQueryPartText).
Abbreviation checkName :=
  (TestGroups.checkName FixtureClass TestFn Params decodeURIComponent).
Abbreviation checkParts := (TestGroups.checkParts validQueryPart validQueryPartText).
Abbreviation fn := (TestGroups.fn FixtureClass TestFn Params).
Abbreviation validate :=
  (TestGroups.validate FixtureClass TestFn Params mergeParams stringifyPublicParams
     stringifyPublicParamsUniquely emptyParams).

(** *** [TestGroup] *)

(** [new TestGroup(fixture)], which is what [makeTestGroup] and
    [makeTestGroupForUnitTesting] return. *)
Definition makeTestGroup (fixture : FixtureClass) : TestGroup :=
  mkTestGroup fixture ∅ [].

(** [TestGroup.iterate]. *)
Definition iterateGroup (this : TestGroup) : list TestBuilder := tests this.

(** [for (const test of this.tests) test.validate()]. *)
Fixpoint validateTests (tests : list TestBuilder) : Completion unit :=
  match tests with
  | [] => Normal tt
  | test :: rest =>
      match snd (validate test) with
      | Throw ex => Throw ex
      | Normal _ => validateTests rest
      end
  end.

(** [TestGroup.validate]: [TestBuilder.validate] assigns to no field, so the
    group it leaves is the one it was given. *)
Definition validateGroup (this : TestGroup) : TestGroup * Completion unit :=
  (this, validateTests (tests this)).

(** The name under which a builder was registered:
    [testPath.join(kPathSeparator)]. *)
Definition testPathString (b : TestBuilder) : string :=
  String.concat (String kPathSeparator "") (testPath b).

(** A group after [test(name)] was called for each of [names] in turn,
    whether the call threw or not. *)
Definition registerAll (names : list string) (this : TestGroup) : TestGroup :=
  fold_left (fun g name => fst (test name g)) names this.

(** *** [TestBuilder] *)

Definition unimplemented (this : TestBuilder) : TestBuilder * Completion unit :=
  match testFn this with
  | Some _ => (this, Throw (assertionError ""))
  | None =>
      (mkTestBuilder (testPath this)
         (Some ((if truthy_opt (description this)
                 then default "" (description this) +:+ nl +:+ nl
                 else "") +:+ "TODO: .unimplemented()"))
         (testCreationStack this) (fixture this) (Some unimplementedFn)
         (testCases this), Normal tt)
  end.

(** [cases(casesIterable)], with the iterable taken as the list of what it
    yields. *)
Definition cases (casesIterable : list Params) (this : TestBuilder)
    : TestBuilder * Completion unit :=
  match testCases this with
  | Some _ => (this, Throw (assertionError "test case is already parameterized"))
  | None =>
      (mkTestBuilder (testPath this) (description this) (testCreationStack this)
         (fixture this) (testFn this)
         (Some (map (fun c => (c, None)) casesIterable)), Normal tt)
  end.

(** [params(casesIterable)] is [cases(casesIterable)]. *)
Definition params (casesIterable : list Params) (this : TestBuilder)
    : TestBuilder * Completion unit :=
  cases casesIterable this.

(** [new RunCaseSpecific(testPath, params, subcases, fixture, fn,
    testCreationStack)]. *)
Definition newRunCaseSpecific (testPath : list string) (params : Params)
    (subcases : option (list Params)) (fixture : FixtureClass) (fn : TestFn)
    (testCreationStack : Error) : Case :=
  RunCase.mkRunCase testPath params subcases (behaviour fixture fn)
    testCreationStack.

(** [*iterate()], run to its end: the builder as the generator leaves it and
    the list of the cases it yields. *)
Definition iterate (this : TestBuilder) : TestBuilder * Completion (list Case) :=
  match testFn this with
  | None => (this, Throw (assertionError "No test function (.fn()) for test"))
  | Some f =>
      let testCases := default [(emptyParams, None)] (testCases this) in
      (mkTestBuilder (testPath this) (description this) (testCreationStack this)
         (fixture this) (testFn this) (Some testCases),
       Normal (map (fun '(caseParams, subcases) =>
                      newRunCaseSpecific (testPath this) caseParams subcases
                        (fixture this) f (testCreationStack this))
                   testCases))
  end.

(** The methods of a builder that are embedded here. *)
Inductive Method :=
| DoFn (f : TestFn)
| DoUnimplemented
| DoCases (casesIterable : list Params)
| DoParams (casesIterable : list Params)
| DoValidate
| DoIterate.

(** The builder after a call, whether the call threw or not. *)
Definition after (m : Method) (this : TestBuilder) : TestBuilder :=
  match m with
  | DoFn f => fst (fn f this)
  | DoUnimplemented => fst (unimplemented this)
  | DoCases l => fst (cases l this)
  | DoParams l => fst (params l this)
  | DoValidate => fst (validate this)
  | DoIterate => fst (iterate this)
  end.

(** *** Helper lemmas *)

(** [validate] returns the builder it was given. *)
Lemma validate_same_builder (this : TestBuilder) : fst (validate this) = this.
Proof.
  unfold TestGroups.validate.
  destruct (testFn this); [ | reflexivity ].
  destruct (testCases this); [ | reflexivity ].
  destruct (validateCases _ _ _ _ _ _ _ _); reflexivity.
Qed.

(** One call of [test(name)]: the group keeps its builders, or gains one
    whose path is the split name, the name being new to the group,
    unchanged by percent-decoding and made of valid parts. *)
Lemma test_step (name : string) (this : TestGroup) :
  let this' := fst (test name this) in
  seen this ⊆ seen this' /\
  (tests this' = tests this \/
   exists b,
     tests this' = (tests this ++ [b])%list /\
     testPathString b = name /\ testFn b = None /\
     (name ∉ seen this) /\ name ∈ seen this' /\
     decodeURIComponent name = Normal name /\
     Forall (fun p => validQueryPart p = true) (testPath b)).
Proof.
  cbv zeta. unfold TestGroups.test, TestGroups.checkName.
  destruct (decodeURIComponent name) as [decoded | ex]; cbn [fst];
    [ | split; [ reflexivity | now left ] ].
  destruct (String.eqb name decoded) eqn:Hdec; cbn [negb fst];
    [ | split; [ reflexivity | now left ] ].
  apply String.eqb_eq in Hdec. subst decoded.
  destruct (bool_decide (name ∈ seen this)) eqn:Hseen;
    [ split; [ reflexivity | now left ] | ].
  apply bool_decide_eq_false in Hseen.
  destruct (TestGroups.checkParts validQueryPart validQueryPartText
              (split kPathSeparator name)) as [[] | ex] eqn:Hparts; cbn [fst seen tests].
  - split; [ apply union_subseteq_r | ]. right.
    eexists. split; [ reflexivity | ].
    unfold testPathString, newTestBuilder; cbn.
    split; [ apply Text.concat_split | ].
    split; [ reflexivity | ].
    split; [ exact Hseen | ].
    split; [ apply elem_of_union_l, elem_of_singleton; reflexivity | ].
    split; [ reflexivity | ].
    now apply checkParts_ok in Hparts.
  - split; [ apply union_subseteq_r | now left ].
Qed.

Lemma not_in_names (name : string) (bs : list TestBuilder) (known : gset string) :
  Forall (fun b => testPathString b ∈ known) bs ->
  name ∉ known ->
  ~ In name (map testPathString bs).
Proof.
  intros Hall Hnew Hin. apply List.in_map_iff in Hin as (b & <- & Hb).
  rewrite List.Forall_forall in Hall. apply Hnew, Hall, Hb.
Qed.

(** What holds of the builders of a group, and is kept by [test(name)]. *)
Definition wellRegistered (this : TestGroup) : Prop :=
  List.NoDup (map testPathString (tests this)) /\
  Forall (fun b => testPathString b ∈ seen this /\
                   decodeURIComponent (testPathString b) = Normal (testPathString b) /\
                   Forall (fun p => validQueryPart p = true) (testPath b))
         (tests this).

Lemma registerAll_invariant (names : list string) (this : TestGroup) :
  wellRegistered this ->
  let this' := registerAll names this in
  wellRegistered this' /\
  exists added,
    tests this' = (tests this ++ added)%list /\
    sublist (map testPathString added) names.
Proof.
  cbv zeta. revert this.
  induction names as [| name names IH]; intros this Hinv.
  - split; [ exact Hinv | ]. exists []. cbn. rewrite app_nil_r.
    split; [ reflexivity | constructor ].
  - cbn [registerAll fold_left].
    change (fold_left _ names ?g) with (registerAll names g).
    destruct (test_step name this) as (Hsub & Hstep).
    assert (wellRegistered (fst (test name this))) as Hinv'.
    { destruct Hinv as (Hnodup & Hall).
      destruct Hstep as [Hsame | (b & Hnew & Hname & _ & Hfresh & Hin & Hdec & Hparts)].
      - unfold wellRegistered. rewrite Hsame. split; [ exact Hnodup | ].
        eapply List.Forall_impl; [ | exact Hall ].
        intros b' (Hb1 & Hb2 & Hb3). split; [ | now split ].
        apply Hsub, Hb1.
      - unfold wellRegistered. rewrite Hnew. split.
        + rewrite List.map_app. cbn [map].
          apply List.NoDup_app.
          repeat split.
          * exact Hnodup.
          * constructor; [ intros [] | constructor ].
          * intros x Hx [<- | []]. rewrite Hname in Hx.
            revert Hx. apply (not_in_names name _ (seen this)); [ | exact Hfresh ].
            eapply List.Forall_impl; [ | exact Hall ]. now intros b' (Hb1 & _).
        + apply List.Forall_app. split.
          * eapply List.Forall_impl; [ | exact Hall ].
            intros b' (Hb1 & Hb2 & Hb3). split; [ | now split ].
            apply Hsub, Hb1.
          * constructor; [ | constructor ].
            rewrite Hname. repeat split; assumption. }
    destruct (IH _ Hinv') as (Hfinal & added & Htests & Hsl).
    split; [ exact Hfinal | ].
    destruct Hstep as [Hsame | (b & Hnew & Hname & _)].
    + exists added. rewrite Htests, Hsame. split; [ reflexivity | ].
      now apply sublist_cons.
    + exists (b :: added). rewrite Htests, Hnew, <- List.app_assoc.
      split; [ reflexivity | ].
      cbn [map]. rewrite Hname. now apply sublist_skip.
Qed.

(** *** [TestGroup] *)

(** X8. The path of a builder that [test(name)] returns, joined by the path
    separator, is [name] again; the builder is the last of the group, and
    [validate()] on it fails with a message that starts with
    'Test is missing .fn(): ' followed by [name]. *)
Theorem registered_name_is_reported (name : string) (this this' : TestGroup)
    (b : TestBuilder)
    (Hregistered : test name this = (this', Normal b)) :
  testPathString b = name /\
  tests this' = (tests this ++ [b])%list /\
  exists rest,
    validate b = (b, Throw (assertionError
                              ("Test is missing .fn(): " +:+ name +:+ rest))).
Proof.
  unfold TestGroups.test, TestGroups.checkName in Hregistered.
  destruct (decodeURIComponent name) as [decoded | ex]; [ | discriminate ].
  destruct (negb (String.eqb name decoded)); [ discriminate | ].
  destruct (bool_decide (name ∈ seen this)); [ discriminate | ].
  destruct (TestGroups.checkParts _ _ _) as [[] | ex]; [ | discriminate ].
  cbn [tests groupFixture] in Hregistered.
  injection Hregistered as <- <-.
  pose proof (Text.concat_split kPathSeparator name) as Hname.
  split; [ exact Hname | ].
  split; [ reflexivity | ].
  exists "". unfold TestGroups.validate. cbn.
  cbn in Hname. rewrite Hname.
  now rewrite CheckContents.append_nil_r.
Qed.

(** X9. However many names are passed to [test()] of a new group, accepted
    or rejected: the builders of the group have pairwise distinct names, in
    the order of their registration; each name is in the set of seen names,
    is unchanged by percent-decoding, and is made of valid parts. *)
Theorem registered_names_are_distinct (fixture : FixtureClass)
    (names : list string) :
  let this := registerAll names (makeTestGroup fixture) in
  let registered := map testPathString (iterateGroup this) in
  List.NoDup registered /\
  sublist registered names /\
  Forall (fun b => testPathString b ∈ seen this /\
                   decodeURIComponent (testPathString b) = Normal (testPathString b) /\
                   Forall (fun p => validQueryPart p = true) (testPath b))
         (iterateGroup this).
Proof.
  cbv zeta. unfold iterateGroup.
  destruct (registerAll_invariant names (makeTestGroup fixture))
    as ((Hnodup & Hall) & added & Htests & Hsl).
  { split; [ constructor | constructor ]. }
  split; [ exact Hnodup | ]. split; [ | exact Hall ].
  rewrite Htests. exact Hsl.
Qed.


Lemma validateTests_ok (bs : list TestBuilder) :
  validateTests bs = Normal tt <->
  Forall (fun b => snd (validate b) = Normal tt) bs.
Proof.
  induction bs as [| b bs IH]; cbn [validateTests].
  - split; [ constructor | reflexivity ].
  - destruct (snd (validate b)) as [[] | ex] eqn:Hb.
    + rewrite IH. split; [ now constructor | now inversion 1 ].
    + split; [ discriminate | ]. inversion 1; congruence.
Qed.

Lemma validateTests_throws (bs : list TestBuilder) (ex : Error) :
  validateTests bs = Throw ex <->
  exists before b rest,
    bs = (before ++ b :: rest)%list /\
    Forall (fun b => snd (validate b) = Normal tt) before /\
    snd (validate b) = Throw ex.
Proof.
  induction bs as [| b bs IH]; cbn [validateTests].
  - split; [ discriminate | ].
    intros (before & b & rest & H & _). now destruct before.
  - destruct (snd (validate b)) as [[] | ex0] eqn:Hb.
    + rewrite IH. split.
      * intros (before & b' & rest & -> & Hall & Hex).
        exists (b :: before), b', rest. repeat split; auto.
      * intros (before & b' & rest & Heq & Hall & Hex).
        destruct before as [| b0 before]; cbn [app] in Heq;
          injection Heq as -> ->; [ congruence | ].
        exists before, b', rest. inversion Hall; subst. repeat split; auto.
    + split.
      * intros [= ->]. exists [], b, bs. repeat split; auto.
      * intros (before & b' & rest & Heq & Hall & Hex).
        destruct before as [| b0 before]; cbn [app] in Heq;
          injection Heq as -> ->; [ congruence | ].
        inversion Hall; subst. congruence.
Qed.

(** X11. [TestGroup.validate] succeeds exactly when [validate()] succeeds on
    every builder of the group; otherwise it throws what the first failing
    builder throws. It leaves the group as it was. *)
Theorem validateGroup_stops_at_first_failure (this : TestGroup) :
  fst (validateGroup this) = this /\
  (snd (validateGroup this) = Normal tt <->
   Forall (fun b => snd (validate b) = Normal tt) (tests this)) /\
  (forall ex : Error,
     snd (validateGroup this) = Throw ex <->
     exists before b rest,
       tests this = (before ++ b :: rest)%list /\
       Forall (fun b => snd (validate b) = Normal tt) before /\
       snd (validate b) = Throw ex).
Proof.
  unfold validateGroup. cbn [fst snd].
  split; [ reflexivity | ].
  split; [ apply validateTests_ok | apply validateTests_throws ].
Qed.

(** *** [TestBuilder] *)

(** X12. None of [fn], [unimplemented], [cases], [params], [validate] and
    [iterate] replaces what was assigned once: whichever is called, and
    whether it throws or not, the path, the fixture class and the creation
    stack stay; a test function stays once attached, and with it the
    description; a parameterization stays once given. *)
Theorem builder_is_assigned_once (m : Method) (this : TestBuilder) :
  let this' := after m this in
  testPath this' = testPath this /\
  fixture this' = fixture this /\
  testCreationStack this' = testCreationStack this /\
  (forall f, testFn this = Some f ->
             testFn this' = Some f /\ description this' = description this) /\
  (forall c, testCases this = Some c -> testCases this' = Some c).
Proof.
  cbv zeta. destruct m; cbn [after];
    rewrite ?validate_same_builder;
    unfold TestGroups.fn, unimplemented, params, cases, iterate;
    try (destruct (testFn this) eqn:Hfn);
    try (destruct (testCases this) eqn:Hcases);
    cbn; repeat split; try congruence; intros; congruence.
Qed.

(** X13. [iterate()] throws when no test function is attached. Otherwise it
    yields one case per entry of the parameterization, in order, each with
    the path, the fixture, the function and the creation stack of the
    builder; a test that was not parameterized yields the single case with
    empty parameters and no subcases. Afterwards the builder counts as
    parameterized: [cases()] on it fails. *)
Theorem iterate_yields_one_case_per_entry (this : TestBuilder) :
  match testFn this with
  | None =>
      iterate this =
      (this, Throw (assertionError "No test function (.fn()) for test"))
  | Some f =>
      let entries := default [(emptyParams, None)] (testCases this) in
      exists yielded : list Case,
        snd (iterate this) = Normal yielded /\
        map (fun rc => (RunCase.params rc, RunCase.subcases rc)) yielded = entries /\
        Forall (fun rc => RunCase.testPath rc = testPath this /\
                          RunCase.fixture rc = behaviour (fixture this) f /\
                          RunCase.testCreationStack rc = testCreationStack this)
               yielded /\
        testCases (fst (iterate this)) = Some entries /\
        forall l,
          cases l (fst (iterate this)) =
          (fst (iterate this),
           Throw (assertionError "test case is already parameterized"))
  end.
Proof.
  unfold iterate. destruct (testFn this) as [f |]; [ | reflexivity ].
  cbv zeta. cbn [fst snd]. eexists. split; [ reflexivity | ].
  split; [ | split; [ | split ] ].
  - rewrite List.map_map. rewrite <- (List.map_id (default _ _)) at 2.
    apply List.map_ext. now intros [c sc].
  - apply List.Forall_forall. intros rc Hin.
    apply List.in_map_iff in Hin as ([c sc] & <- & _). now cbn.
  - reflexivity.
  - intros l. reflexivity.
Qed.

End Builders.

End Builders.

(** ** Printing a log message: [toJSON] and [prettyPrintLog] *)

Module LogPrinting.

Import LogMessage.

Definition lineFeed : ascii := ascii_of_nat 10.

(** [s.replace(/\n/g, '\n    ')]. *)
Fixpoint indentLines (s : string) : string :=
  match s with
  | EmptyString => ""
  | String c rest =>
      if Ascii.eqb c lineFeed then nl +:+ "    " +:+ indentLines rest
      else String c (indentLines rest)
  end.

Section PrettyPrint.

Variable extractImportantStackTrace : LogMessageWithStack -> string.

(** [prettyPrintLog(log)]. *)
Definition prettyPrintLog (log : LogMessageWithStack) : string :=
  "  - " +:+ indentLines (toJSON extractImportantStackTrace log).

End PrettyPrint.

(** The lines of a text: [s.split('\n')]. *)
Definition lines (s : string) : list string := TestGroups.split lineFeed s.

(** The lines of a list item: the first behind the marker, the others
    indented to its text. *)
Definition listItem (ls : list string) : list string :=
  match ls with
  | [] => []
  | first :: rest => ("  - " +:+ first) :: map (String.append "    ") rest
  end.

(** What [toJSON] prints of a message with name and message text only. *)
Definition title (this : LogMessageWithStack) : string :=
  if truthy (message this) then name this +:+ ": " +:+ message this
  else name this.

(** *** Helper lemmas *)

Lemma lines_indentLines (s : string) :
  lines (indentLines s) =
  match lines s with
  | [] => []
  | first :: rest => first :: map (String.append "    ") rest
  end.
Proof.
  unfold lines. induction s as [| c s IH]; [ reflexivity | ].
  cbn [indentLines TestGroups.split].
  destruct (Ascii.eqb c lineFeed) eqn:Hc.
  - change (nl +:+ "    " +:+ indentLines s)
      with (String lineFeed ("    " +:+ indentLines s)).
    cbn [TestGroups.split]. rewrite Ascii.eqb_refl.
    rewrite Text.split_prefix by (repeat constructor).
    rewrite IH. pose proof (Text.split_nonempty lineFeed s) as Hne.
    destruct (TestGroups.split lineFeed s); [ contradiction | reflexivity ].
  - cbn [TestGroups.split]. rewrite Hc, IH.
    destruct (TestGroups.split lineFeed s); reflexivity.
Qed.

(** *** Properties *)

(** X14. [prettyPrintLog] prints a message as a list item: the first line of
    [toJSON] behind the marker "  - ", and every further line indented by
    four spaces; it adds and removes no line. *)
Theorem prettyPrintLog_indents
    (extractImportantStackTrace : LogMessageWithStack -> string)
    (log : LogMessageWithStack) :
  lines (prettyPrintLog extractImportantStackTrace log) =
  listItem (lines (toJSON extractImportantStackTrace log)).
Proof.
  unfold prettyPrintLog, lines.
  rewrite Text.split_prefix by (repeat constructor).
  pose proof (lines_indentLines (toJSON extractImportantStackTrace log)) as H.
  unfold lines in H. rewrite H.
  pose proof (Text.split_nonempty lineFeed
                (toJSON extractImportantStackTrace log)) as Hne.
  destruct (TestGroups.split lineFeed (toJSON extractImportantStackTrace log));
    [ contradiction | reflexivity ].
Qed.

(** X15. After [setStackHidden(s)], [toJSON] never prints the stack: what it
    returns does not depend on the stack or on [extractImportantStackTrace],
    and is the name and message, then the line "  (s)" if [s] is not empty,
    then the note on duplicates if the message was seen more than once. *)
Theorem hidden_stack_is_not_printed
    (extractImportantStackTrace : LogMessageWithStack -> string)
    (s : string) (this : LogMessageWithStack) :
  toJSON extractImportantStackTrace (setStackHidden s this) =
  title this +:+
  (if truthy s then nl +:+ "  (" +:+ s +:+ ")" else "") +:+
  (if (1 <? timesSeen this)%Z then duplicatedNote (timesSeen this) else "").
Proof.
  unfold toJSON, toJSON_head, setStackHidden, title.
  cbn [name message stack stackHiddenMessage timesSeen andb truthy_opt default].
  destruct (truthy (message this)), (truthy s), (1 <? timesSeen this)%Z;
    cbn [andb]; repeat rewrite CheckContents.append_assoc;
    now rewrite ?CheckContents.append_nil_r.
Qed.

End LogPrinting.

From Stdlib Require HexadecimalN HexadecimalPos HexadecimalFacts.

(** ** More on checking the contents of typed arrays *)

Module ContentChecks.

Import CheckContents.


(** Reading back what [intToPaddedHex] prints: an optional minus sign, then
    hexadecimal digits. *)
Definition readHex (s : string) : option Z :=
  match HexadecimalString.NilZero.uint_of_string s with
  | Some d => Some (Z.of_N (N.of_hex_uint d))
  | None =>
      match s with
      | String "-" digits =>
          match HexadecimalString.NilZero.uint_of_string digits with
          | Some d => Some (- Z.of_N (N.of_hex_uint d))%Z
          | None => None
          end
      | _ => None
      end
  end.

(** [k] zeros, as [padStart] puts them before a text. *)
Definition zeros (k : nat) : string := string_of_list_ascii (repeat "0"%char k).

(** *** Helper lemmas *)



Lemma length_string_of_list_ascii (l : list ascii) :
  String.length (string_of_list_ascii l) = length l.
Proof. induction l as [| c l IH]; cbn; [ reflexivity | now rewrite IH ]. Qed.

Lemma length_padStart (w : nat) (pad : ascii) (s : string) :
  String.length (padStart w pad s) = Nat.max w (String.length s).
Proof.
  unfold padStart.
  rewrite Text.length_append, length_string_of_list_ascii, List.repeat_length. lia.
Qed.

(** A row of a rectangular table fills the columns it is printed in. *)
Lemma length_renderRow (n k : nat) (rows : list (list string)) (row : list string) :
  Forall (fun row => length row = n) rows ->
  In row rows ->
  String.length (renderRow (firstn k (columnWidths n rows)) row) =
  list_sum (firstn k (columnWidths n rows)).
Proof.
  revert k rows row.
  induction n as [| n IH]; intros k rows row Hrect Hin; cbn [columnWidths].
  - now rewrite List.firstn_nil.
  - destruct k as [| k]; [ reflexivity | ]. cbn [firstn].
    pose proof Hrect as Hrow. rewrite List.Forall_forall in Hrow.
    specialize (Hrow row Hin).
    destruct row as [| c row]; [ discriminate | ].
    cbn [renderRow list_sum fold_right]. fold (list_sum (firstn k (columnWidths n (map (@tl string) rows)))).
    rewrite Text.length_append, length_padStart.
    rewrite (IH k (map (@tl string) rows) row).
    + assert (String.length c <= list_max (map cellLength (map (@hd_error string) rows))).
      { apply list_max_ge.
        apply List.in_map_iff. exists (Some c). split; [ reflexivity | ].
        apply List.in_map_iff. exists (c :: row). now split. }
      lia.
    + now apply tails_rectangular.
    + apply List.in_map_iff. exists (c :: row). now split.
Qed.

Lemma toHex_read (n : Z) :
  HexadecimalString.NilZero.uint_of_string (toHex n) =
  Some (N.to_hex_uint (Z.to_N (Z.abs n))).
Proof.
  unfold toHex. apply HexadecimalString.NilZero.usu.
  destruct (Z.to_N (Z.abs n)); cbn [N.to_hex_uint]; [ discriminate | ].
  apply HexadecimalPos.Unsigned.to_uint_nonnil.
Qed.

Lemma zeros_read (k : nat) (s : string) (d : Hexadecimal.uint) :
  HexadecimalString.NilZero.uint_of_string s = Some d ->
  HexadecimalString.NilZero.uint_of_string (zeros k +:+ s) =
  Some (Nat.iter k Hexadecimal.D0 d).
Proof.
  intros Hs. induction k as [| k IH]; [ exact Hs | ].
  change (zeros (S k) +:+ s) with (String "0" (zeros k +:+ s)).
  cbn [Nat.iter]. cbn [HexadecimalString.NilZero.uint_of_string].
  cbn [HexadecimalString.NilEmpty.uint_of_string].
  replace (HexadecimalString.NilEmpty.uint_of_string (zeros k +:+ s))
    with (Some (Nat.iter k Hexadecimal.D0 d)); [ reflexivity | ].
  rewrite <- IH. unfold HexadecimalString.NilZero.uint_of_string.
  destruct (zeros k +:+ s) eqn:Heq; [ | reflexivity ].
  discriminate IH.
Qed.

Lemma of_hex_uint_zeros (k : nat) (d : Hexadecimal.uint) :
  N.of_hex_uint (Nat.iter k Hexadecimal.D0 d) = N.of_hex_uint d.
Proof. induction k as [| k IH]; [ reflexivity | exact IH ]. Qed.

Lemma padStart_zeros (w : nat) (s : string) :
  padStart w "0"%char s = zeros (w - String.length s) +:+ s.
Proof. reflexivity. Qed.

Lemma minus_not_read (s : string) :
  HexadecimalString.NilZero.uint_of_string (String "-" s) = None.
Proof.
  cbn [HexadecimalString.NilZero.uint_of_string
       HexadecimalString.NilEmpty.uint_of_string].
  now destruct (HexadecimalString.NilEmpty.uint_of_string s).
Qed.




Lemma usize_nb_digits (d : Hexadecimal.uint) :
  HexadecimalPos.Unsigned.usize d = N.of_nat (Hexadecimal.nb_digits d).
Proof.
  induction d; cbn [HexadecimalPos.Unsigned.usize Hexadecimal.nb_digits];
    rewrite ?IHd; lia.
Qed.

Lemma length_string_of_uint (d : Hexadecimal.uint) :
  d <> Hexadecimal.Nil ->
  String.length (HexadecimalString.NilZero.string_of_uint d) =
  Hexadecimal.nb_digits d.
Proof.
  assert (Hgen : forall u, String.length (HexadecimalString.NilEmpty.string_of_uint u) =
                           Hexadecimal.nb_digits u).
  { induction u; cbn; now rewrite ?IHu. }
  intros Hd. destruct d; [ congruence | .. ]; apply Hgen.
Qed.

(** The first digit that [toString(16)] prints of a positive number is not
    zero: the number is at least 16 to the number of digits after it. *)
Lemma to_hex_uint_digits (p : positive) :
  (16 ^ N.of_nat (Hexadecimal.nb_digits (Pos.to_hex_uint p) - 1) <= N.pos p)%N.
Proof.
  pose proof (HexadecimalPos.Unsigned.of_to p) as Hof.
  pose proof (HexadecimalPos.Unsigned.to_of (Pos.to_hex_uint p)) as Hnorm.
  rewrite Hof in Hnorm. cbn [N.to_hex_uint] in Hnorm.
  pose proof (HexadecimalPos.Unsigned.to_uint_nonnil p) as Hnonnil.
  pose proof (HexadecimalPos.Unsigned.to_uint_nonzero p) as Hnonzero.
  destruct (Pos.to_hex_uint p) as [| l | l | l | l | l | l | l | l | l | l | l | l | l | l | l | l];
    [ congruence | | .. ].
  { exfalso. unfold Hexadecimal.unorm in Hnorm. cbn [Hexadecimal.nzhead] in Hnorm.
    pose proof (HexadecimalFacts.nb_digits_nzhead l) as Hle.
    destruct (Hexadecimal.nzhead l); try discriminate Hnorm;
      injection Hnorm as Hl; subst l; [ congruence | cbn in Hle; lia ]. }
  all: cbn [Pos.of_hex_uint] in Hof;
    rewrite HexadecimalPos.Unsigned.of_uint_acc_rev, usize_nb_digits in Hof;
    cbn [Hexadecimal.nb_digits]; rewrite Nat.sub_succ, Nat.sub_0_r;
    rewrite <- Hof; nia.
Qed.

Lemma length_toHex (n : Z) (k : nat) :
  0 < k -> (Z.abs n < 16 ^ Z.of_nat k)%Z -> String.length (toHex n) <= k.
Proof.
  intros Hk Hn. unfold toHex.
  destruct (Z.to_N (Z.abs n)) as [| p] eqn:Hm; [ cbn; lia | ].
  rewrite length_string_of_uint
    by (cbn [N.to_hex_uint]; apply HexadecimalPos.Unsigned.to_uint_nonnil).
  cbn [N.to_hex_uint].
  pose proof (to_hex_uint_digits p) as Hlow.
  assert (Hup : (N.pos p < 16 ^ N.of_nat k)%N).
  { rewrite <- Hm. apply N2Z.inj_lt. rewrite N2Z.inj_pow, Z2N.id by lia.
    now rewrite nat_N_Z. }
  assert (Hlt : (N.of_nat (Hexadecimal.nb_digits (Pos.to_hex_uint p) - 1) < N.of_nat k)%N).
  { apply (N.pow_lt_mono_r_iff 16); [ lia | ]. lia. }
  lia.
Qed.




(** *** Properties *)



(** X18. For rows of one number of cells, [generatePrettyTable] returns one
    line per row, and all lines have the same length: each cell is padded
    on the left to the width of its column. *)
Theorem table_is_aligned (fillToWidth : nat) (numberToString : Z -> string)
    (n : nat) (rows : list (list Cell))
    (Hrect : Forall (fun row => length row = n) rows) :
  exists (tableLines : list string) (width : nat),
    generatePrettyTable fillToWidth numberToString rows =
      String.concat nl tableLines /\
    length tableLines = length rows /\
    Forall (fun line => String.length line = width) tableLines.
Proof.
  rewrite (generatePrettyTable_rendered fillToWidth numberToString n rows Hrect).
  set (texts := map (map (cellText numberToString)) rows).
  assert (Hrect' : Forall (fun row => length row = n) texts).
  { subst texts. rewrite List.Forall_forall in *. intros row Hin.
    apply List.in_map_iff in Hin as (cells & <- & Hin).
    rewrite List.length_map. now apply Hrect. }
  set (widths := columnWidths n texts).
  set (shown := printed fillToWidth 0 widths).
  exists (renderTable fillToWidth n texts),
         (list_sum (firstn (fst shown) widths) + String.length (ellipsis (snd shown))).
  split; [ reflexivity | ].
  unfold renderTable. fold widths. fold shown.
  split; [ subst texts; now rewrite !List.length_map | ].
  apply List.Forall_forall. intros line Hin.
  apply List.in_map_iff in Hin as (row & <- & Hin).
  rewrite Text.length_append. f_equal.
  subst widths. now apply length_renderRow.
Qed.

(** X19. What [intToPaddedHex] prints can be read back: the minus sign and
    the hexadecimal digits, with or without padding, give the number again;
    so two different numbers are never printed alike. *)
Theorem intToPaddedHex_reads_back (number byteLength : Z) :
  readHex (intToPaddedHex number byteLength) = Some number /\
  forall other otherLength : Z,
    intToPaddedHex other otherLength = intToPaddedHex number byteLength ->
    other = number.
Proof.
  assert (Hback : forall n b : Z, readHex (intToPaddedHex n b) = Some n).
  { intros n b. unfold intToPaddedHex.
    set (s := if (b =? 0)%Z then toHex n
              else padStart (Z.to_nat (b * 2)) "0"%char (toHex n)).
    assert (Hs : exists k, s = zeros k +:+ toHex n).
    { subst s. destruct (b =? 0)%Z.
      - now exists 0.
      - eexists. apply padStart_zeros. }
    destruct Hs as (k & Hs).
    assert (Hread : HexadecimalString.NilZero.uint_of_string s =
                    Some (Nat.iter k Hexadecimal.D0
                            (N.to_hex_uint (Z.to_N (Z.abs n))))).
    { rewrite Hs. apply zeros_read, toHex_read. }
    clearbody s.
    destruct (n <? 0)%Z eqn:Hneg.
    - unfold readHex. change ("-" +:+ s) with (String "-" s).
      rewrite minus_not_read, Hread, of_hex_uint_zeros.
      rewrite HexadecimalN.Unsigned.of_to. f_equal.
      apply Z.ltb_lt in Hneg. lia.
    - unfold readHex. rewrite Hread, of_hex_uint_zeros.
      rewrite HexadecimalN.Unsigned.of_to. f_equal.
      apply Z.ltb_ge in Hneg. lia. }
  split; [ apply Hback | ].
  intros other otherLength Heq.
  pose proof (Hback other otherLength) as Hother.
  rewrite Heq, Hback in Hother. congruence.
Qed.

(** X20. With a byte length above zero, a number whose absolute value is
    below 256 to the byte length is printed with exactly two digits for each
    byte, after the minus sign if it is negative: the cells of one column of
    in-range values have one width. *)
Theorem intToPaddedHex_width (number byteLength : Z)
    (Hbytes : (0 < byteLength)%Z)
    (Hrange : (Z.abs number < 256 ^ byteLength)%Z) :
  String.length (intToPaddedHex number byteLength) =
  Z.to_nat (2 * byteLength) + (if (number <? 0)%Z then 1 else 0).
Proof.
  unfold intToPaddedHex.
  destruct (Z.eqb_spec byteLength 0) as [ | _ ]; [ lia | ].
  assert (Hlen : String.length (toHex number) <= Z.to_nat (byteLength * 2)).
  { apply length_toHex; [ lia | ].
    rewrite Z2Nat.id by lia.
    replace (16 ^ (byteLength * 2))%Z with (256 ^ byteLength)%Z; [ exact Hrange | ].
    rewrite Z.mul_comm, Z.pow_mul_r by lia. reflexivity. }
  destruct (number <? 0)%Z.
  - change ("-" +:+ ?s) with (String "-" s). cbn [String.length].
    rewrite length_padStart. lia.
  - rewrite length_padStart. lia.
Qed.

End ContentChecks.

(** ** Checks against two arrays: [checkElementsBetween] and
    [checkElementsEqualEither] *)

Module BoundsChecks.

Import CheckContents.

(** [a[i]], which is [undefined] outside the array. *)
Definition index (a : TypedArray) (i : nat) : option Z := nth_error (elements a) i.

(** An entry of [predicatePrinter] whose cells come from an array that may
    be shorter than the one that is checked: a cell may be [undefined]. *)
Record PredicatePrinterRow := mkPrinterRow {
  leftHeader : string;
  getValueForCell : nat -> option Z
}.

(** *** [generatePrettyTable] on rows that hold [undefined] *)

Section PrettyTable.

Variable fillToWidth : nat.
Variable numberToString : Z -> string.

(** [r.done ? undefined : typeof r.value === 'number' ?
    numberToString(r.value) : r.value]: a value that is [undefined] is a
    cell that is [undefined]. *)
Definition next (iter : list (option Cell)) : option string :=
  match iter with
  | [] => None
  | value :: _ => option_map (cellText numberToString) value
  end.

(** The body of [for (;;)], once per column; [fuel] only has to exceed the
    number of cells of the longest row. *)
Fixpoint tableColumns (fuel : nat) (iters : list (list (option Cell)))
    (rowStrings : list string) (totalTableWidth : nat) : list string :=
  match fuel with
  | O => rowStrings
  | S fuel =>
      let cellsForColumn := map next iters in
      if forallb isUndefined cellsForColumn then rowStrings
      else
        let colWidth := list_max (map cellLength cellsForColumn) + 1 in
        let rowStrings :=
          zip_with (fun rowString cell =>
                      match cell with
                      | Some c => rowString +:+ padStart colWidth space c
                      | None => rowString
                      end) rowStrings cellsForColumn in
        let totalTableWidth := totalTableWidth + colWidth in
        if (fillToWidth <=? totalTableWidth)%nat then
          zip_with (fun rowString cell =>
                      match cell with
                      | Some _ => rowString +:+ " ..."
                      | None => rowString
                      end) rowStrings cellsForColumn
        else tableColumns fuel (map (@tl (option Cell)) iters) rowStrings
               totalTableWidth
  end.

Definition generatePrettyTable (rows : list (list (option Cell))) : string :=
  let rowStrings := map (fun _ => "") rows in
  String.concat nl
    (tableColumns (S (list_max (map (@length (option Cell)) rows))) rows
       rowStrings 0).

End PrettyTable.

(** *** [checkElementsPassPredicate] with such a printer *)

Definition checkElementsPassPredicate (actual : TypedArray)
    (predicate : nat -> Z -> bool) (predicatePrinter : list PredicatePrinterRow)
    : option Error :=
  let size := Z.of_nat (length (elements actual)) in
  let ctor := constructor actual in
  let '(failedElementsFirstMaybe, failedElements) :=
    scanElements predicate 0 (elements actual) None [] in
  match failedElementsFirstMaybe with
  | None => None
  | Some failedElementsFirst =>
      let failedElementsFirst := Z.of_nat failedElementsFirst in
      let failedElementsLast := (sparseLength failedElements - 1)%Z in
      let printElementsStart := Z.max 0 (failedElementsFirst - 1) in
      let printElementsEnd := Z.min size (failedElementsLast + 2) in
      let printElementsCount := (printElementsEnd - printElementsStart)%Z in
      let numberToString := fun n => intToPaddedHex n (BYTES_PER_ELEMENT ctor) in
      let numberPrefix := "0x:" in
      let printActual := subarray actual printElementsStart printElementsEnd in
      let printExpected :=
        map (fun printer =>
               Some (CellString (leftHeader printer)) :: Some (CellString "") ::
               map (fun i => option_map CellNumber
                               (getValueForCell printer
                                  (Z.to_nat printElementsStart + i)))
                   (seq 0 (Z.to_nat printElementsCount)))
            predicatePrinter in
      let printFailedValueMarkers :=
        Some (CellString "failed ->") :: Some (CellString "") ::
        map (fun i => Some (CellString
                        (if sparseGet failedElements (Z.to_nat printElementsStart + i)
                         then "xx" else "")))
            (seq 0 (Z.to_nat printElementsCount)) in
      let msg :=
        "Array had unexpected contents at indices " +:+
        numberToDecimal failedElementsFirst +:+ " through " +:+
        numberToDecimal failedElementsLast +:+ "." +:+ nl +:+
        " Starting at index " +:+ numberToDecimal printElementsStart +:+ ":" +:+ nl +:+
        generatePrettyTable 120 numberToString
          ((Some (CellString "actual ==") :: Some (CellString numberPrefix) ::
            map (fun n => Some (CellNumber n)) printActual) ::
           printFailedValueMarkers :: printExpected) in
      Some (ErrorWithExtra msg)
  end.

(** *** [checkElementsBetween] and [checkElementsEqualEither] *)

(** [value >= Math.min(a, b) && value <= Math.max(a, b)]; a comparison with
    the [NaN] that [Math.min] and [Math.max] make of [undefined] is false. *)
Definition between (a b : option Z) (value : Z) : bool :=
  match a, b with
  | Some a, Some b => (Z.min a b <=? value)%Z && (value <=? Z.max a b)%Z
  | _, _ => false
  end.

(** [value === a], which is false for [undefined]. *)
Definition strictEquals (value : Z) (a : option Z) : bool :=
  match a with
  | Some a => (value =? a)%Z
  | None => false
  end.

Definition checkElementsBetween (actual : TypedArray)
    (expected : TypedArray * TypedArray) : option Error :=
  let error :=
    checkElementsPassPredicate actual
      (fun i value => between (index (fst expected) i) (index (snd expected) i) value)
      [ {| leftHeader := "between"; getValueForCell := index (fst expected) |};
        {| leftHeader := "and"; getValueForCell := index (snd expected) |} ] in
  match error with
  | Some error => Some (ErrorWithExtra (message error))
  | None => None
  end.

Definition checkElementsEqualEither (actual : TypedArray)
    (expected : TypedArray * TypedArray) : option Error :=
  let error :=
    checkElementsPassPredicate actual
      (fun i value => strictEquals value (index (fst expected) i) ||
                      strictEquals value (index (snd expected) i))
      [ {| leftHeader := "either"; getValueForCell := index (fst expected) |};
        {| leftHeader := "or"; getValueForCell := index (snd expected) |} ] in
  match error with
  | Some error => Some (ErrorWithExtra (message error))
  | None => None
  end.

(** A printer whose cells are all defined. *)
Definition defined (printer : CheckContents.PredicatePrinterRow)
    : PredicatePrinterRow :=
  {| leftHeader := CheckContents.leftHeader printer;
     getValueForCell := fun i => Some (CheckContents.getValueForCell printer i) |}.

(** *** Helper lemmas *)

(** On rows without [undefined], the table is the one of
    [CheckContents.generatePrettyTable]. *)
Lemma tableColumns_defined (fillToWidth : nat) (numberToString : Z -> string)
    (fuel : nat) (rows : list (list Cell)) (rowStrings : list string) (total : nat) :
  tableColumns fillToWidth numberToString fuel (map (map Some) rows) rowStrings total =
  CheckContents.tableColumns fillToWidth fuel
    (map (map (cellText numberToString)) rows) rowStrings total.
Proof.
  revert rows rowStrings total.
  induction fuel as [| fuel IH]; intros rows rowStrings total; [ reflexivity | ].
  cbn [tableColumns CheckContents.tableColumns].
  assert (Hheads : map (next numberToString) (map (map Some) rows) =
                   map (@hd_error string) (map (map (cellText numberToString)) rows)).
  { rewrite !List.map_map. apply List.map_ext. now intros [| c row]. }
  assert (Htails : map (@tl (option Cell)) (map (map Some) rows) =
                   map (map Some) (map (@tl Cell) rows)).
  { rewrite !List.map_map. apply List.map_ext. now intros [| c row]. }
  assert (Htails' : map (@tl string) (map (map (cellText numberToString)) rows) =
                    map (map (cellText numberToString)) (map (@tl Cell) rows)).
  { rewrite !List.map_map. apply List.map_ext. now intros [| c row]. }
  rewrite Hheads, Htails, Htails', IH. reflexivity.
Qed.

Lemma generatePrettyTable_defined (fillToWidth : nat) (numberToString : Z -> string)
    (rows : list (list Cell)) :
  generatePrettyTable fillToWidth numberToString (map (map Some) rows) =
  CheckContents.generatePrettyTable fillToWidth numberToString rows.
Proof.
  unfold generatePrettyTable, CheckContents.generatePrettyTable.
  rewrite tableColumns_defined. do 2 f_equal.
  - do 2 f_equal. rewrite List.map_map. apply List.map_ext.
    intros row. apply List.length_map.
  - now rewrite List.map_map.
Qed.

(** With a printer whose cells are all defined, the check is the one of
    [CheckContents.checkElementsPassPredicate]. *)
Lemma checkElementsPassPredicate_defined (actual : TypedArray)
    (predicate : nat -> Z -> bool)
    (predicatePrinter : list CheckContents.PredicatePrinterRow) :
  checkElementsPassPredicate actual predicate (map defined predicatePrinter) =
  CheckContents.checkElementsPassPredicate actual predicate predicatePrinter.
Proof.
  unfold checkElementsPassPredicate, CheckContents.checkElementsPassPredicate.
  destruct (scanElements predicate 0 (elements actual) None [])
    as [[first |] failed]; [ | reflexivity ].
  rewrite <- generatePrettyTable_defined.
  cbn [map]. rewrite !List.map_map. cbn [defined leftHeader getValueForCell].
  repeat first [ reflexivity | apply List.map_ext; intros | f_equal; [] ].
  cbn [map option_map]. now rewrite List.map_map.
Qed.








(** *** Properties *)



End BoundsChecks.

(** ** Shader types for tests *)

Module ShaderTypes.

(** [ScalarType = 'i32' | 'u32' | 'f32' | 'bool']. *)
Inductive ScalarType := I32 | U32 | F32 | BOOL.

(** [ContainerType = 'scalar' | 'vector' | 'matrix' | 'atomic' | 'array']. *)
Inductive ContainerType := Scalar | Vector | Matrix | Atomic | Array.

(** The text of a scalar type: [baseType.toString()]. *)
Definition scalarName (t : ScalarType) : string :=
  match t with
  | I32 => "i32"
  | U32 => "u32"
  | F32 => "f32"
  | BOOL => "bool"
  end.

Definition ScalarType_eqb (a b : ScalarType) : bool :=
  match a, b with
  | I32, I32 | U32, U32 | F32, F32 | BOOL, BOOL => true
  | _, _ => false
  end.

Record Layout := mkLayout {
  alignment : Z;
  size : Z
}.

(** An entry of [kScalarTypeInfo]. *)
Record ScalarTypeInfo := mkScalarInfo {
  scalarLayout : option Layout;
  scalarSupportsAtomics : bool;
  scalarArrayLength : Z;
  scalarInnerLength : Z
}.

(** An entry of [kVectorContainerTypeInfo] or [kMatrixContainerTypeInfo]. *)
Record ContainerTypeInfo := mkContainerInfo {
  containerName : string;
  containerLayout : Layout;
  containerArrayLength : Z;
  containerInnerLength : Z
}.

Definition kArrayLength : Z := 3.

Definition HostSharableTypes : list ScalarType := [I32; U32; F32].

Definition kScalarTypeInfo (t : ScalarType) : ScalarTypeInfo :=
  match t with
  | I32 => mkScalarInfo (Some (mkLayout 4 4)) true 1 0
  | U32 => mkScalarInfo (Some (mkLayout 4 4)) true 1 0
  | F32 => mkScalarInfo (Some (mkLayout 4 4)) false 1 0
  | BOOL => mkScalarInfo None false 1 0
  end.

(** [keysOf(kScalarTypeInfo)]: the keys in the order in which the object
    literal lists them. *)
Definition kScalarTypes : list ScalarType := [I32; U32; F32; BOOL].

(** [kVectorContainerTypeInfo], by [kVectorContainerTypes], its keys in
    order. *)
Definition kVectorContainerTypeInfo : list ContainerTypeInfo :=
  [ mkContainerInfo "vec2" (mkLayout 8 8) 2 0;
    mkContainerInfo "vec3" (mkLayout 16 12) 3 0;
    mkContainerInfo "vec4" (mkLayout 16 16) 4 0 ].

(** [kMatrixContainerTypeInfo], by [kMatrixContainerTypes], its keys in
    order. *)
Definition kMatrixContainerTypeInfo : list ContainerTypeInfo :=
  [ mkContainerInfo "mat2x2" (mkLayout 8 16) 2 2;
    mkContainerInfo "mat3x2" (mkLayout 8 24) 3 2;
    mkContainerInfo "mat4x2" (mkLayout 8 32) 4 2;
    mkContainerInfo "mat2x3" (mkLayout 16 32) 2 3;
    mkContainerInfo "mat3x3" (mkLayout 16 48) 3 3;
    mkContainerInfo "mat4x3" (mkLayout 16 64) 4 3;
    mkContainerInfo "mat2x4" (mkLayout 16 32) 2 4;
    mkContainerInfo "mat3x4" (mkLayout 16 48) 3 4;
    mkContainerInfo "mat4x4" (mkLayout 16 64) 4 4 ].

(** What [generateTypes] yields: [{ type, _kTypeInfo }], where the fields of
    [_kTypeInfo] other than [elementBaseType] and [arrayLength] depend on the
    container. *)
Record TypeInfo := mkTypeInfo {
  elementBaseType : string;
  layout : option Layout;
  supportsAtomicsField : option bool;
  arrayLength : Z;
  innerLength : option Z
}.

Record GeneratedType := mkGenerated {
  type : string;
  _kTypeInfo : TypeInfo
}.

(** [supportsAtomics(p)]; [p.access] is not looked at. *)
Definition supportsAtomics (storageClass : string) (storageMode : option string)
    (containerType : ContainerType) : bool :=
  ((String.eqb storageClass "storage" &&
    match storageMode with
    | Some mode => String.eqb mode "read_write"
    | None => false
    end) ||
   String.eqb storageClass "workgroup") &&
  match containerType with
  | Scalar | Array => true
  | _ => false
  end.

(** [*supportedScalarTypes(p)], as the list of what it yields. *)
Definition supportedScalarTypes (isAtomic : bool) (storageClass : string)
    : list ScalarType :=
  List.filter
    (fun scalarType =>
       let info := kScalarTypeInfo scalarType in
       if isAtomic && negb (scalarSupportsAtomics info) then false
       else
         let isHostShared :=
           String.eqb storageClass "storage" || String.eqb storageClass "uniform" in
         if isHostShared && match scalarLayout info with None => true | Some _ => false end
         then false
         else true)
    kScalarTypes.

Section GenerateTypes.

(** [align(n, alignment)] comes from util/math. *)
Variable align : Z -> Z -> Z.

Definition arrayStride (elementLayout : Layout) : Z :=
  align (size elementLayout) (alignment elementLayout).

Definition isHostSharable (baseType : ScalarType) : bool :=
  existsb (fun sharableType => ScalarType_eqb sharableType baseType)
          HostSharableTypes.

(** [*generateTypes({ storageClass, baseType, containerType, isAtomic })],
    run to its end: the exception of an assertion, or the list of what it
    yields. *)
Definition generateTypes (storageClass : string) (baseType : ScalarType)
    (containerType : ContainerType) (isAtomic : bool)
    : Completion (list GeneratedType) :=
  let scalarInfo := kScalarTypeInfo baseType in
  if isAtomic && negb (scalarSupportsAtomics scalarInfo)
  then Throw (assertionError "type does not support atomics")
  else
    let scalarType :=
      if isAtomic then "atomic<" +:+ scalarName baseType +:+ ">"
      else scalarName baseType in
    if (String.eqb storageClass "storage" || String.eqb storageClass "uniform") &&
       negb (isHostSharable baseType)
    then Throw (assertionError
                  ("type " +:+ scalarName baseType +:+ " is not host sharable"))
    else
      Normal
        match containerType with
        | Scalar =>
            [ mkGenerated scalarType
                (mkTypeInfo scalarType (scalarLayout scalarInfo)
                   (Some (scalarSupportsAtomics scalarInfo))
                   (scalarArrayLength scalarInfo)
                   (Some (scalarInnerLength scalarInfo))) ]
        | Vector =>
            map (fun vectorInfo =>
                   mkGenerated
                     (containerName vectorInfo +:+ "<" +:+ scalarType +:+ ">")
                     (mkTypeInfo (scalarName baseType)
                        (Some (containerLayout vectorInfo)) None
                        (containerArrayLength vectorInfo)
                        (Some (containerInnerLength vectorInfo))))
                kVectorContainerTypeInfo
        | Matrix =>
            if ScalarType_eqb baseType F32 then
              map (fun matrixInfo =>
                     mkGenerated
                       (containerName matrixInfo +:+ "<" +:+ scalarType +:+ ">")
                       (mkTypeInfo
                          ("vec" +:+ numberToDecimal (containerInnerLength matrixInfo)
                           +:+ "<" +:+ scalarType +:+ ">")
                          (Some (containerLayout matrixInfo)) None
                          (containerArrayLength matrixInfo)
                          (Some (containerInnerLength matrixInfo))))
                  kMatrixContainerTypeInfo
            else []
        | Atomic => []
        | Array =>
            let arrayTypeInfo :=
              mkTypeInfo (scalarName baseType)
                (match scalarLayout scalarInfo with
                 | Some l =>
                     Some (mkLayout (alignment l)
                             (if String.eqb storageClass "uniform"
                              then kArrayLength * arrayStride (mkLayout 16 (size l))
                              else kArrayLength * arrayStride l))
                 | None => None
                 end)
                None kArrayLength None in
            let length := numberToDecimal kArrayLength in
            ((if String.eqb storageClass "uniform"
              then [ mkGenerated ("[[stride(16)]] array<" +:+ scalarType +:+ "," +:+
                                  length +:+ ">") arrayTypeInfo ]
              else [ mkGenerated ("array<" +:+ scalarType +:+ "," +:+ length +:+ ">")
                       arrayTypeInfo ]) ++
             (if String.eqb storageClass "storage"
              then [ mkGenerated ("array<" +:+ scalarType +:+ ">") arrayTypeInfo ]
              else []))%list
        end.

(** How many types a container stands for. *)
Definition typeCount (storageClass : string) (baseType : ScalarType)
    (containerType : ContainerType) : nat :=
  match containerType with
  | Scalar => 1
  | Vector => 3
  | Matrix => if ScalarType_eqb baseType F32 then 9 else 0
  | Atomic => 0
  | Array => if String.eqb storageClass "storage" then 2 else 1
  end.

(** *** Properties *)

(** X23. [generateTypes] accepts every scalar type that
    [supportedScalarTypes] yields for the same [isAtomic] and storage class:
    no assertion fails, whatever the container. *)
Theorem supported_types_are_generated (isAtomic : bool) (storageClass : string)
    (containerType : ContainerType) :
  Forall (fun baseType =>
            exists types,
              generateTypes storageClass baseType containerType isAtomic =
              Normal types)
         (supportedScalarTypes isAtomic storageClass).
Proof.
  unfold supportedScalarTypes, generateTypes.
  destruct isAtomic,
    (String.eqb storageClass "storage"), (String.eqb storageClass "uniform");
    cbn; repeat constructor; eexists; reflexivity.
Qed.

(** X24. [generateTypes] throws exactly when the type is to be atomic and
    does not support atomics, or the storage class is 'storage' or 'uniform'
    and the type is 'bool'; the first of the two is reported when both
    hold. Otherwise it yields one type for a scalar, three for vectors, nine
    for matrices of 'f32' and none for matrices of another type, none for
    the container 'atomic', and one array, or two in storage class
    'storage'; and no two of the types it yields have the same name. *)
Theorem generateTypes_yields (storageClass : string) (baseType : ScalarType)
    (containerType : ContainerType) (isAtomic : bool) :
  let notAtomic := isAtomic && negb (scalarSupportsAtomics (kScalarTypeInfo baseType)) in
  let notSharable :=
    (String.eqb storageClass "storage" || String.eqb storageClass "uniform") &&
    ScalarType_eqb baseType BOOL in
  match generateTypes storageClass baseType containerType isAtomic with
  | Throw ex =>
      notAtomic || notSharable = true /\
      ex = assertionError
             (if notAtomic then "type does not support atomics"
              else "type " +:+ scalarName baseType +:+ " is not host sharable")
  | Normal types =>
      notAtomic || notSharable = false /\
      length types = typeCount storageClass baseType containerType /\
      List.NoDup (map type types)
  end.
Proof.
  cbv zeta. unfold generateTypes, typeCount.
  destruct isAtomic, baseType,
    (String.eqb storageClass "storage"), (String.eqb storageClass "uniform");
    cbn [andb orb negb kScalarTypeInfo scalarSupportsAtomics isHostSharable
         existsb HostSharableTypes ScalarType_eqb];
    try (split; reflexivity);
    (split; [ reflexivity | ]);
    destruct containerType; cbn [ScalarType_eqb];
    (split; [ reflexivity | ]);
    cbn; repeat constructor; cbn; intuition discriminate.
Qed.

End GenerateTypes.

End ShaderTypes.

(** ** The added functions on concrete inputs *)

Module ConcreteMore.

Import Query Concrete.

Definition recorderRaises : RunCase.endSubCaseRaisesOnlyUnexpectedPass :=
  RecordedRun.recorder_endSubCase_raises (fun s => s) (fun s => s).


(** Three passing subcases: [run] returns and has called [finish]. *)
Lemma run_escapes_witness :
  let result := RunCase.run (recorder := recorder) mergeParams stringifyPublicParams
                  compareQueries (caseOf (Some threeSubcases) passing) mapCase []
                  freshWorld in
  RunCase.completionOf result = Normal tt /\
  In RunCase.RecFinish (RunCaseFacts.newEvents freshWorld result).
Proof.
  destruct (RunCaseFacts.run_escapes (recorder := recorder) mergeParams
              stringifyPublicParams compareQueries
              (caseOf (Some threeSubcases) passing) mapCase [] freshWorld
              recorderRaises) as (Hcompletes & _ & Hfinish).
  split; [ exact Hcompletes | ]. apply Hfinish. exact Hcompletes.
Defined.


(** With one subcase that passes among three, nothing is reported for the
    whole case. *)
Example one_passing_subcase_is_not_skipped :
  let result := RunCase.run (recorder := recorder) mergeParams stringifyPublicParams
                  compareQueries
                  (caseOf (Some threeSubcases)
                     (fun p => if String.eqb (default "" (lookupParam "size" p)) "8"
                               then passing p else skipping p))
                  mapCase [] freshWorld in
  List.filter RunCaseFacts.isCaseLevel (RunCaseFacts.newEvents freshWorld result) =
  [RunCase.RecStart; RunCase.RecFinish].
Proof. reflexivity. Qed.

(** *** Groups and builders *)

Definition validQueryPartText : string := "/^[a-zA-Z0-9_]+$/".

Definition emptyGroup : TestGroups.TestGroup unit unit TestParams :=
  Builders.makeTestGroup unit unit TestParams tt.

Definition register (name : string) (group : TestGroups.TestGroup unit unit TestParams) :=
  TestGroups.test unit unit TestParams decodeURIComponent validQueryPart
    validQueryPartText name group.

Definition mapRead : TestGroups.TestBuilder unit unit TestParams :=
  TestGroups.newTestBuilder unit unit TestParams ["map"; "read"] tt
    {| cls := PlainError; message := "Test created: map,read"; stack := None |}.

(** The builder registered as "map,read" reports that name. *)
Lemma registered_name_is_reported_witness :
  Builders.testPathString unit unit TestParams mapRead = "map,read".
Proof.
  exact (proj1 (Builders.registered_name_is_reported unit unit TestParams
                  decodeURIComponent validQueryPart validQueryPartText
                  mergeParams stringifyPublicParams stringifyPublicParams []
                  "map,read" emptyGroup (fst (register "map,read" emptyGroup))
                  mapRead eq_refl)).
Defined.


(** *** Log messages *)

Example prettyPrintLog_of_a_failure :
  let log := LogMessage.constructor "EXCEPTION" deviceLost in
  LogPrinting.prettyPrintLog (fun log => default "" (LogMessage.stack log)) log =
  "  - EXCEPTION: device lost" +:+ nl +:+ "    at init".
Proof. reflexivity. Qed.

(** *** Tables and checks *)

Definition byteText (n : Z) : string := CheckContents.intToPaddedHex n 1.

Definition twoRows : list (list CheckContents.Cell) :=
  [ [CheckContents.CellString "actual =="; CheckContents.CellNumber 1;
     CheckContents.CellNumber 255];
    [CheckContents.CellString "and"; CheckContents.CellNumber 0;
     CheckContents.CellNumber 16] ]%Z.

Lemma table_is_aligned_witness :
  exists (tableLines : list string) (width : nat),
    CheckContents.generatePrettyTable 120 byteText twoRows =
      String.concat nl tableLines /\
    length tableLines = 2 /\
    Forall (fun line => String.length line = width) tableLines.
Proof.
  apply (ContentChecks.table_is_aligned 120 byteText 3 twoRows).
  repeat constructor.
Defined.

Example table_of_two_rows :
  CheckContents.generatePrettyTable 120 byteText twoRows =
  " actual == 01 ff" +:+ nl +:+ "       and 00 10".
Proof. reflexivity. Qed.

(** A byte is printed with two digits. *)
Lemma intToPaddedHex_width_witness :
  String.length (CheckContents.intToPaddedHex 10 1) = 2.
Proof.
  apply (ContentChecks.intToPaddedHex_width 10 1); reflexivity.
Defined.

Example intToPaddedHex_of_bytes :
  map byteText [0; 10; 255; -1; 4096]%Z = ["00"; "0a"; "ff"; "-01"; "1000"].
Proof. reflexivity. Qed.

(** Bounds that are shorter than the checked array: the check fails from
    the first index without a bound on, and the row "and" ends there. *)
Example checkElementsBetween_short_bounds :
  BoundsChecks.checkElementsBetween
    (CheckContents.mkTypedArray CheckContents.Uint8Array [1; 2; 3]%Z)
    (CheckContents.mkTypedArray CheckContents.Uint8Array [0; 0; 0]%Z,
     CheckContents.mkTypedArray CheckContents.Uint8Array [9; 9]%Z) =
  Some (CheckContents.ErrorWithExtra
    ("Array had unexpected contents at indices 2 through 2." +:+ nl +:+
     " Starting at index 1:" +:+ nl +:+
     " actual == 0x: 02 03" +:+ nl +:+
     " failed ->        xx" +:+ nl +:+
     "   between     00 00" +:+ nl +:+
     "       and     09")).
Proof. vm_compute. reflexivity. Qed.

(** With one expected array too short, an array may be equal to the other
    and yet not be between the two. *)
Example equal_to_one_yet_not_between :
  let actual := CheckContents.mkTypedArray CheckContents.Uint8Array [7]%Z in
  let expected := (CheckContents.mkTypedArray CheckContents.Uint8Array [],
                   CheckContents.mkTypedArray CheckContents.Uint8Array [7]%Z) in
  BoundsChecks.checkElementsEqualEither actual expected = None /\
  BoundsChecks.checkElementsBetween actual expected <> None.
Proof. split; [ reflexivity | vm_compute; discriminate ]. Qed.

(** *** Expectations *)

(** The declarations of [skipFileFailCase] in the other order. *)
Lemma getExpectedStatus_any_order_witness :
  Expectations.getExpectedStatus (TestQuery TestParams) compareQueries
    [Expectations.mkDecl mapCase ExpFail; Expectations.mkDecl wholeFile ExpSkip]
    mapCase =
  Expectations.getExpectedStatus (TestQuery TestParams) compareQueries
    skipFileFailCase mapCase.
Proof.
  apply (ExpectationFacts.getExpectedStatus_any_order (TestQuery TestParams)
           compareQueries skipFileFailCase).
  - intros d [<- | [<- | []]] _; discriminate.
  - apply perm_swap.
Defined.

(** *** Shader types *)

Example generateTypes_of_atomic_arrays :
  map ShaderTypes.type
    (match ShaderTypes.generateTypes (fun n a => ((n + a - 1) / a * a)%Z)
             "storage" ShaderTypes.U32 ShaderTypes.Array true with
     | Normal types => types
     | Throw _ => []
     end) =
  ["array<atomic<u32>,3>"; "array<atomic<u32>>"].
Proof. reflexivity. Qed.

End ConcreteMore.
